(** * Double-entry ledger engine of the accounting application

    A shallow embedding of the journal-entry posting code:

      - [server/storage.ts]: [DatabaseStorage.createJournalEntry],
        [updateJournalEntry], [updateAccount], [getAccount],
        [getAccountsByCompany], [getJournalEntry], [getAccountBalances];
      - [server/routes.ts]: the handlers [POST /api/journal-entries],
        [PUT /api/journal-entries/:id] and [PUT /api/accounts/:id];
      - [client/src/lib/accounting-utils.ts]: [calculateAccountBalance],
        [isDebitNormal], [isCreditNormal];
      - the table declarations of the shared schema ([accounts],
        [journal_entries], [journal_entry_lines], [insertAccountSchema]).

    ** Conventions of the embedding

    - _Amounts._  The money columns are [decimal(15,2)] and every balance the
      code writes goes through [toFixed(2)].  An amount is held as its integer
      number of cents ([Z]): ["150.00"] is [15000].  [parseFloat] and
      [toFixed(2)] are the conversions between the column text and the number;
      the binary64 arithmetic in between is taken to be exact on cents.
      Request strings with more than two decimals, or that are not numbers,
      are outside the embedding.  The tolerance [0.01] of the routes is
      [1] cent.  On doubles a difference of exactly one cent passes or fails
      the test [Math.abs(totalDebits - totalCredits) > 0.01] case by case
      (0.02 against 0.01 passes, 100.01 against 100.00 does not): module
      [Binary64] runs the source's arithmetic on doubles, [checkBalanced] asks
      it when the totals are exactly one cent apart, and the concrete inputs
      of the examples are checked against it.
    - _Tables._  A table is the list of its rows.  [select ... where] is a
      filter, the destructuring [const [row] = ...] takes the first row of the
      result, [update ... where] rewrites every row that matches.  The
      database's own integrity checking (primary keys, foreign keys) is not
      part of the code; where a theorem needs the primary key of [accounts]
      it says so ([pk_accounts]).
    - _Identifiers._  Account and company ids are strings.  The id the
      database gives a new journal entry ([gen_random_uuid()]) is drawn from a
      counter kept in the state, which makes it fresh.
    - _Transactions._  [db.transaction] commits the state the callback
      reaches, or keeps the state it started from when the callback throws.
    - Timestamps ([createdAt], [updatedAt]) are not represented. *)

From Stdlib Require Import ZArith List Ascii String Bool Lia Arith.
From Stdlib Require PrimFloat FloatOps.
From Stdlib Require DecimalString DecimalNat.
From Stdlib Require Import Permutation Sorted.
Import ListNotations.

Local Open Scope string_scope.
Local Open Scope Z_scope.

(** ** Schema *)

(** [accountTypeEnum] *)
Inductive AccountType : Set :=
| ASSET | LIABILITY | EQUITY | REVENUE | EXPENSE.

Definition AccountType_eqb (x y : AccountType) : bool :=
  match x, y with
  | ASSET, ASSET | LIABILITY, LIABILITY | EQUITY, EQUITY
  | REVENUE, REVENUE | EXPENSE, EXPENSE => true
  | _, _ => false
  end.

(** A [decimal(15,2)] value, in cents. *)
Definition Money := Z.

(** Row of [accounts]. *)
Module Account.
Record t : Set := mk {
  id : string;
  companyId : string;
  code : string;
  name : string;
  type : AccountType;
  parentId : option string;
  description : option string;
  isActive : bool;
  balance : Money;
  currency : string
}.

(** [.set({ balance: b })] on one row *)
Definition set_balance (a : t) (b : Money) : t :=
  mk (id a) (companyId a) (code a) (name a) (type a) (parentId a)
     (description a) (isActive a) b (currency a).
End Account.

(** [Partial<InsertAccount>]: [insertAccountSchema] is the insert schema of
    [accounts] without [id], [createdAt], [updatedAt]; [.partial()] makes every
    remaining field optional.  [parentId] and [description] are nullable
    columns, so a present value may itself be null. *)
Module AccountPatch.
Record t : Set := mk {
  companyId : option string;
  code : option string;
  name : option string;
  type : option AccountType;
  parentId : option (option string);
  description : option (option string);
  isActive : option bool;
  balance : option Money;
  currency : option string
}.

Definition empty : t :=
  mk None None None None None None None None None.
End AccountPatch.

(** Row of [journal_entries]. *)
Module JournalEntry.
Record t : Set := mk {
  id : nat;
  companyId : string;
  entryNumber : string;
  date : string;
  description : string;
  reference : option string;
  totalAmount : Money;
  createdBy : string
}.
End JournalEntry.

(** [InsertJournalEntry]: a [journal_entries] row without its id. *)
Module InsertJournalEntry.
Record t : Set := mk {
  companyId : string;
  entryNumber : string;
  date : string;
  description : string;
  reference : option string;
  totalAmount : Money;
  createdBy : string
}.
End InsertJournalEntry.

(** [Partial<InsertJournalEntry>] *)
Module EntryPatch.
Record t : Set := mk {
  companyId : option string;
  entryNumber : option string;
  date : option string;
  description : option string;
  reference : option string;
  totalAmount : option Money;
  createdBy : option string
}.
End EntryPatch.

(** [Omit<InsertJournalEntryLine, 'journalEntryId'>]: what both the routes and
    the storage layer call a line. *)
Module Line.
Record t : Set := mk {
  accountId : string;
  description : option string;
  debitAmount : Money;
  creditAmount : Money;
  currency : string;
  exchangeRate : string
}.
End Line.

(** Row of [journal_entry_lines]. *)
Module JournalEntryLine.
Record t : Set := mk {
  journalEntryId : nat;
  accountId : string;
  description : option string;
  debitAmount : Money;
  creditAmount : Money;
  currency : string;
  exchangeRate : string
}.

(** [{ ...line, journalEntryId }] *)
Definition of_line (entryId : nat) (l : Line.t) : t :=
  mk entryId (Line.accountId l) (Line.description l) (Line.debitAmount l)
     (Line.creditAmount l) (Line.currency l) (Line.exchangeRate l).

(** the amounts and account of a stored row, as the reversal loop reads them *)
Definition to_line (r : t) : Line.t :=
  Line.mk (accountId r) (description r) (debitAmount r) (creditAmount r)
          (currency r) (exchangeRate r).
End JournalEntryLine.

(** The database: the three tables the posting code touches, and the supply of
    journal-entry ids. *)
Record Db : Set := mkDb {
  accounts : list Account.t;
  journalEntries : list JournalEntry.t;
  journalEntryLines : list JournalEntryLine.t;
  nextEntryId : nat
}.

(** ** Numbers at the boundary *)

(** [parseFloat] of a column text / [toFixed(2)] of a number: on cents both
    are the identity (see the conventions above). *)
Definition parseFloat (m : Money) : Z := m.
Definition toFixed2 (x : Z) : Money := x.

(** ** [client/src/lib/accounting-utils.ts] *)

(** [["ASSET", "EXPENSE"].includes(accountType)] *)
Definition isDebitNormal (accountType : AccountType) : bool :=
  match accountType with
  | ASSET | EXPENSE => true
  | _ => false
  end.

(** [["LIABILITY", "EQUITY", "REVENUE"].includes(accountType)] *)
Definition isCreditNormal (accountType : AccountType) : bool :=
  match accountType with
  | LIABILITY | EQUITY | REVENUE => true
  | _ => false
  end.

Definition calculateAccountBalance
    (currentBalance : Z) (accountType : AccountType)
    (debitAmount creditAmount : Z) : Z :=
  if isDebitNormal accountType
  then currentBalance + debitAmount - creditAmount
  else currentBalance + creditAmount - debitAmount.

(** ** [server/storage.ts] *)

(** [const [account] = await tx.select().from(accounts).where(eq(accounts.id, id))] *)
Definition selectAccount (id : string) (rows : list Account.t)
  : option Account.t :=
  hd_error (filter (fun a => String.eqb (Account.id a) id) rows).

(** [tx.update(accounts).set({ balance }).where(eq(accounts.id, id))] *)
Definition setBalanceWhere (id : string) (b : Money) (rows : list Account.t)
  : list Account.t :=
  map (fun a => if String.eqb (Account.id a) id then Account.set_balance a b else a) rows.

(** Body of the loop [for (const line of lines)] of [createJournalEntry], and
    of the second loop of [updateJournalEntry]: the forward delta. *)
Definition applyLine (rows : list Account.t) (line : Line.t)
  : list Account.t :=
  match selectAccount (Line.accountId line) rows with
  | Some account =>
      let currentBalance := parseFloat (Account.balance account) in
      let debit := parseFloat (Line.debitAmount line) in
      let credit := parseFloat (Line.creditAmount line) in
      let newBalance :=
        if isDebitNormal (Account.type account)
        then currentBalance + (debit - credit)
        else currentBalance + (credit - debit) in
      setBalanceWhere (Account.id account) (toFixed2 newBalance) rows
  | None => rows
  end.

(** Body of the first loop of [updateJournalEntry]: the reversing delta. *)
Definition reverseLine (rows : list Account.t) (line : Line.t)
  : list Account.t :=
  match selectAccount (Line.accountId line) rows with
  | Some account =>
      let currentBalance := parseFloat (Account.balance account) in
      let debit := parseFloat (Line.debitAmount line) in
      let credit := parseFloat (Line.creditAmount line) in
      let newBalance :=
        if isDebitNormal (Account.type account)
        then currentBalance - (debit - credit)
        else currentBalance - (credit - debit) in
      setBalanceWhere (Account.id account) (toFixed2 newBalance) rows
  | None => rows
  end.

Definition applyLines (lines : list Line.t) (rows : list Account.t)
  : list Account.t :=
  fold_left applyLine lines rows.

Definition reverseLines (lines : list Line.t) (rows : list Account.t)
  : list Account.t :=
  fold_left reverseLine lines rows.

(** [getAccount] *)
Definition getAccount (id : string) (db : Db) : option Account.t :=
  selectAccount id (accounts db).

(** [getAccountsByCompany]; the rows come back ordered by [code], which no
    caller below looks at (the routes only build a [Set] of the ids). *)
Definition getAccountsByCompany (companyId : string) (db : Db)
  : list Account.t :=
  filter (fun a => String.eqb (Account.companyId a) companyId) (accounts db).

(** [getJournalEntry] *)
Definition getJournalEntry (id : nat) (db : Db) : option JournalEntry.t :=
  hd_error (filter (fun e => Nat.eqb (JournalEntry.id e) id) (journalEntries db)).

(** [select().from(journalEntryLines).where(eq(journalEntryLines.journalEntryId, id))] *)
Definition linesOfEntry (id : nat) (db : Db) : list JournalEntryLine.t :=
  filter (fun r => Nat.eqb (JournalEntryLine.journalEntryId r) id)
         (journalEntryLines db).

(** [createJournalEntry]: insert the header (the database supplies the id),
    insert the lines under that id, then post every line. *)
Definition createJournalEntry
    (entry : InsertJournalEntry.t) (lines : list Line.t) (db : Db)
  : JournalEntry.t * Db :=
  let newEntry :=
    JournalEntry.mk (nextEntryId db)
      (InsertJournalEntry.companyId entry) (InsertJournalEntry.entryNumber entry)
      (InsertJournalEntry.date entry) (InsertJournalEntry.description entry)
      (InsertJournalEntry.reference entry) (InsertJournalEntry.totalAmount entry)
      (InsertJournalEntry.createdBy entry) in
  let linesWithEntryId :=
    map (JournalEntryLine.of_line (JournalEntry.id newEntry)) lines in
  (newEntry,
   mkDb (applyLines lines (accounts db))
        (journalEntries db ++ [newEntry])
        (journalEntryLines db ++ linesWithEntryId)
        (S (nextEntryId db))).

(** [{ ...existing, ...entryUpdates }] on one [journal_entries] row *)
Definition patchEntry (e : JournalEntry.t) (u : EntryPatch.t) : JournalEntry.t :=
  let pick {A} (o : option A) (d : A) := match o with Some v => v | None => d end in
  JournalEntry.mk (JournalEntry.id e)
    (pick (EntryPatch.companyId u) (JournalEntry.companyId e))
    (pick (EntryPatch.entryNumber u) (JournalEntry.entryNumber e))
    (pick (EntryPatch.date u) (JournalEntry.date e))
    (pick (EntryPatch.description u) (JournalEntry.description e))
    (match EntryPatch.reference u with
     | Some r => Some r | None => JournalEntry.reference e end)
    (pick (EntryPatch.totalAmount u) (JournalEntry.totalAmount e))
    (pick (EntryPatch.createdBy u) (JournalEntry.createdBy e)).

(** What a storage call can throw inside its transaction. *)
Inductive StorageError : Set :=
| JournalEntryNotFound.   (* new Error('Journal entry not found') *)

(** [updateJournalEntry]: reverse the stored lines, rewrite the header, delete
    the stored lines, insert the new ones, post the new ones.  The throw
    happens before any write, so the transaction leaves [db] as it was. *)
Definition updateJournalEntry
    (id : nat) (entryUpdates : EntryPatch.t) (newLines : list Line.t) (db : Db)
  : (StorageError + JournalEntry.t) * Db :=
  match getJournalEntry id db with
  | None => (inl JournalEntryNotFound, db)
  | Some existingEntry =>
      let existingLines := linesOfEntry id db in
      let reversed :=
        reverseLines (map JournalEntryLine.to_line existingLines) (accounts db) in
      let updatedEntry := patchEntry existingEntry entryUpdates in
      let entries' :=
        map (fun e => if Nat.eqb (JournalEntry.id e) id
                      then patchEntry e entryUpdates else e)
            (journalEntries db) in
      let kept :=
        filter (fun r => negb (Nat.eqb (JournalEntryLine.journalEntryId r) id))
               (journalEntryLines db) in
      let linesWithEntryId := map (JournalEntryLine.of_line id) newLines in
      (inr updatedEntry,
       mkDb (applyLines newLines reversed)
            entries'
            (kept ++ linesWithEntryId)
            (nextEntryId db))
  end.

(** [{ ...row, ...account }] on one [accounts] row *)
Definition patchAccount (a : Account.t) (p : AccountPatch.t) : Account.t :=
  let pick {A} (o : option A) (d : A) := match o with Some v => v | None => d end in
  Account.mk (Account.id a)
    (pick (AccountPatch.companyId p) (Account.companyId a))
    (pick (AccountPatch.code p) (Account.code a))
    (pick (AccountPatch.name p) (Account.name a))
    (pick (AccountPatch.type p) (Account.type a))
    (pick (AccountPatch.parentId p) (Account.parentId a))
    (pick (AccountPatch.description p) (Account.description a))
    (pick (AccountPatch.isActive p) (Account.isActive a))
    (pick (AccountPatch.balance p) (Account.balance a))
    (pick (AccountPatch.currency p) (Account.currency a)).

(** [updateAccount]: [db.update(accounts).set({ ...account }).where(eq(accounts.id, id)).returning()],
    of which the caller keeps the first row. *)
Definition updateAccount (id : string) (account : AccountPatch.t) (db : Db)
  : option Account.t * Db :=
  let rows' :=
    map (fun a => if String.eqb (Account.id a) id then patchAccount a account else a)
        (accounts db) in
  (selectAccount id rows',
   mkDb rows' (journalEntries db) (journalEntryLines db) (nextEntryId db)).

(** [updateAccountBalance] (declared by [IStorage]; no route calls it) *)
Definition updateAccountBalance (id : string) (balance : Money) (db : Db)
  : option Account.t * Db :=
  let rows' := setBalanceWhere id balance (accounts db) in
  (selectAccount id rows',
   mkDb rows' (journalEntries db) (journalEntryLines db) (nextEntryId db)).

(** Sum of the balances of the accounts of one company and one type, as each of
    the five [filter(...).reduce(...)] of [getAccountBalances] computes it. *)
Definition sumBalances (companyId : string) (ty : AccountType)
    (rows : list Account.t) : Z :=
  fold_left (fun sum acc => sum + parseFloat (Account.balance acc))
    (filter (fun a => AccountType_eqb (Account.type a) ty)
       (filter (fun a => String.eqb (Account.companyId a) companyId) rows))
    0.

Record AccountBalances : Set := mkAccountBalances {
  assets : Money;
  liabilities : Money;
  equity : Money;
  revenue : Money;
  expenses : Money
}.

(** [getAccountBalances] *)
Definition getAccountBalances (companyId : string) (db : Db) : AccountBalances :=
  let accountsData := accounts db in
  mkAccountBalances
    (toFixed2 (sumBalances companyId ASSET accountsData))
    (toFixed2 (sumBalances companyId LIABILITY accountsData))
    (toFixed2 (sumBalances companyId EQUITY accountsData))
    (toFixed2 (sumBalances companyId REVENUE accountsData))
    (toFixed2 (sumBalances companyId EXPENSE accountsData)).

(** ** The same numbers on binary64

    The arithmetic of the source, run on doubles, for checking concrete
    inputs against the cents of the embedding.  [parseFloat] of the text of
    [c] cents is the double nearest to [c/100] (the quotient of two exactly
    represented integers, correctly rounded); [toFixed(2)] of a double [x] is
    the integer [n] for which [n/100 - x] is closest to zero in exact
    arithmetic, the larger one on a tie, the sign of [x] being handled apart
    (this is [toFixed] below 1e21, where it prints digits); the result is
    absent when [x] is not finite. *)
Module Binary64.
Definition ofInteger (c : Z) : PrimFloat.float :=
  PrimFloat.of_uint63 (Uint63Axioms.of_Z c).

Definition parseFloat (c : Money) : PrimFloat.float :=
  let q := PrimFloat.div (ofInteger (Z.abs c)) (ofInteger 100) in
  if c <? 0 then PrimFloat.opp q else q.

Definition toFixed2 (x : PrimFloat.float) : option Money :=
  match FloatOps.Prim2SF x with
  | SpecFloat.S754_zero _ => Some 0
  | SpecFloat.S754_finite s m e =>
      let n := if 0 <=? e then Zpos m * 100 * 2 ^ e
               else (200 * Zpos m + 2 ^ (- e)) / (2 * 2 ^ (- e)) in
      Some (if s then - n else n)
  | _ => None
  end.

(** [newBalance.toFixed(2)] of the posting loops *)
Definition newBalance (accountType : AccountType) (balance debitAmount creditAmount : Money)
  : option Money :=
  let currentBalance := parseFloat balance in
  let debit := parseFloat debitAmount in
  let credit := parseFloat creditAmount in
  toFixed2
    (if isDebitNormal accountType
     then PrimFloat.add currentBalance (PrimFloat.sub debit credit)
     else PrimFloat.add currentBalance (PrimFloat.sub credit debit)).

(** [lines.reduce((sum, line) => sum + parseFloat(line.amount), 0)] *)
Definition total (amounts : list Money) : PrimFloat.float :=
  fold_left (fun sum x => PrimFloat.add sum (parseFloat x)) amounts PrimFloat.zero.

(** [Math.abs(totalDebits - totalCredits) > 0.01] *)
Definition unbalanced (lines : list Line.t) : bool :=
  PrimFloat.ltb (parseFloat 1)
    (PrimFloat.abs
       (PrimFloat.sub (total (map Line.debitAmount lines))
                      (total (map Line.creditAmount lines)))).
End Binary64.

(** ** [server/routes.ts] *)

(** The reasons a journal-entry request is turned down, one per [return
    res.status(...)] of the handlers (and the [min(2)] of the payload schema). *)
Inductive ApiError : Set :=
| TooFewLines      (* "Journal entry must have at least 2 lines" *)
| NegativeAmount   (* "Debit and credit amounts must be non-negative" *)
| AmbiguousLine    (* "Each line must have either a debit OR credit amount, not both" *)
| EmptyLine        (* "Each line must have either a debit or credit amount" *)
| Unbalanced (totalDebits totalCredits : Money)
                   (* "Debits (..) must equal credits (..)" *)
| UnknownAccount (accountId : string)
                   (* "Account ID .. does not exist or does not belong to this company" *)
| NotFound.        (* "Journal entry not found" *)

Inductive Response : Set :=
| Json (entry : JournalEntry.t)               (* res.json(entry) *)
| Failure (status : nat) (error : ApiError).  (* res.status(status).json({ message }) *)

(** [entryRequestSchema] of the POST handler *)
Module EntryRequest.
Record t : Set := mk {
  companyId : string;
  entryNumber : string;
  date : string;
  description : string;
  reference : option string;
  totalAmount : Money
}.
End EntryRequest.

(** [entryUpdateSchema] of the PUT handler: no [companyId], no [createdBy] *)
Module EntryUpdate.
Record t : Set := mk {
  entryNumber : option string;
  date : option string;
  description : option string;
  reference : option string;
  totalAmount : option Money
}.
End EntryUpdate.

(** Early returns: the first check that answers decides. *)
Definition orElse (r k : option ApiError) : option ApiError :=
  match r with
  | Some e => Some e
  | None => k
  end.
Infix ">>?" := orElse (at level 60, right associativity).

(** [z.array(lineRequestSchema).min(2, ...)] *)
Definition checkPayload (lines : list Line.t) : option ApiError :=
  if (List.length lines <? 2)%nat then Some TooFewLines else None.

(** The loop "Validate all amounts are non-negative": three tests per line,
    line after line. *)
Fixpoint checkLineAmounts (lines : list Line.t) : option ApiError :=
  match lines with
  | [] => None
  | line :: rest =>
      let debitAmount := parseFloat (Line.debitAmount line) in
      let creditAmount := parseFloat (Line.creditAmount line) in
      if (debitAmount <? 0) || (creditAmount <? 0) then Some NegativeAmount
      else if (debitAmount >? 0) && (creditAmount >? 0) then Some AmbiguousLine
      else if (debitAmount =? 0) && (creditAmount =? 0) then Some EmptyLine
      else checkLineAmounts rest
  end.

Definition totalDebits (lines : list Line.t) : Z :=
  fold_left (fun sum line => sum + parseFloat (Line.debitAmount line)) lines 0.

Definition totalCredits (lines : list Line.t) : Z :=
  fold_left (fun sum line => sum + parseFloat (Line.creditAmount line)) lines 0.

(** [Math.abs(totalDebits - totalCredits) > 0.01].  Totals that are equal, or
    two cents or more apart, get the verdict of exact arithmetic; at exactly
    one cent apart the rounding of the doubles decides, and they are asked. *)
Definition checkBalanced (lines : list Line.t) : option ApiError :=
  let gap := Z.abs (totalDebits lines - totalCredits lines) in
  if (gap >? 1) || ((gap =? 1) && Binary64.unbalanced lines)
  then Some (Unbalanced (toFixed2 (totalDebits lines)) (toFixed2 (totalCredits lines)))
  else None.

(** [for (const accountId of accountIds) if (!validAccountIds.has(accountId)) ...] *)
Fixpoint checkAccountIds (validAccountIds accountIds : list string)
  : option ApiError :=
  match accountIds with
  | [] => None
  | accountId :: rest =>
      if existsb (String.eqb accountId) validAccountIds
      then checkAccountIds validAccountIds rest
      else Some (UnknownAccount accountId)
  end.

Definition checkAccounts (companyId : string) (lines : list Line.t) (db : Db)
  : option ApiError :=
  let accountIds := map Line.accountId lines in
  let validAccountIds := map Account.id (getAccountsByCompany companyId db) in
  checkAccountIds validAccountIds accountIds.

(** The checks both handlers run on the lines once the payload has parsed (the
    two handlers carry the same text). *)
Definition validateLines (companyId : string) (lines : list Line.t) (db : Db)
  : option ApiError :=
  checkLineAmounts lines >>? checkBalanced lines >>? checkAccounts companyId lines db.

(** [POST /api/journal-entries] *)
Definition postJournalEntry
    (entry : EntryRequest.t) (lines : list Line.t) (db : Db) : Response * Db :=
  match checkPayload lines >>? validateLines (EntryRequest.companyId entry) lines db with
  | Some e => (Failure 400 e, db)
  | None =>
      let entryWithCreatedBy :=
        InsertJournalEntry.mk
          (EntryRequest.companyId entry) (EntryRequest.entryNumber entry)
          (EntryRequest.date entry) (EntryRequest.description entry)
          (EntryRequest.reference entry)
          (toFixed2 (totalDebits lines))
          "system_user_id_1" in
      let (journalEntry, db') := createJournalEntry entryWithCreatedBy lines db in
      (Json journalEntry, db')
  end.

(** [PUT /api/journal-entries/:id] *)
Definition putJournalEntry
    (id : nat) (entry : EntryUpdate.t) (lines : list Line.t) (db : Db)
  : Response * Db :=
  match checkPayload lines with
  | Some e => (Failure 400 e, db)
  | None =>
      match getJournalEntry id db with
      | None => (Failure 404 NotFound, db)
      | Some existingEntry =>
          match validateLines (JournalEntry.companyId existingEntry) lines db with
          | Some e => (Failure 400 e, db)
          | None =>
              let updatedEntryData :=
                EntryPatch.mk None
                  (EntryUpdate.entryNumber entry) (EntryUpdate.date entry)
                  (EntryUpdate.description entry) (EntryUpdate.reference entry)
                  (Some (toFixed2 (totalDebits lines)))
                  None in
              match updateJournalEntry id updatedEntryData lines db with
              | (inr updatedEntry, db') => (Json updatedEntry, db')
              | (inl JournalEntryNotFound, db') => (Failure 400 NotFound, db')
              end
          end
      end
  end.

(** [PUT /api/accounts/:id]: the body is parsed by
    [insertAccountSchema.partial()] and handed to [updateAccount]. *)
Definition putAccount (id : string) (accountData : AccountPatch.t) (db : Db)
  : option Account.t * Db :=
  updateAccount id accountData db.

(** ** More of [server/storage.ts]: accounts *)

(** [InsertAccount]: the insert schema of [accounts] without [id],
    [createdAt], [updatedAt].  The columns with a default ([isActive],
    [balance], [currency]) and the nullable ones ([parentId], [description])
    may be left out. *)
Module InsertAccount.
Record t : Set := mk {
  companyId : string;
  code : string;
  name : string;
  type : AccountType;
  parentId : option string;
  description : option string;
  isActive : option bool;
  balance : option Money;
  currency : option string
}.
End InsertAccount.

(** [createAccount]: [db.insert(accounts).values(account).returning()].  The
    id is the one the database draws ([gen_random_uuid()]), handed in as
    [newId]; a column left out takes the default the schema declares
    ([is_active] true, [balance] '0', [currency] 'USD'). *)
Definition createAccount (newId : string) (account : InsertAccount.t) (db : Db)
  : Account.t * Db :=
  let pick {A} (o : option A) (d : A) := match o with Some v => v | None => d end in
  let newAccount :=
    Account.mk newId
      (InsertAccount.companyId account) (InsertAccount.code account)
      (InsertAccount.name account) (InsertAccount.type account)
      (InsertAccount.parentId account) (InsertAccount.description account)
      (pick (InsertAccount.isActive account) true)
      (pick (InsertAccount.balance account) 0)
      (pick (InsertAccount.currency account) "USD") in
  (newAccount,
   mkDb (accounts db ++ [newAccount]) (journalEntries db) (journalEntryLines db)
        (nextEntryId db)).

(** [getAccountByCode] *)
Definition getAccountByCode (companyId code : string) (db : Db)
  : option Account.t :=
  hd_error
    (filter (fun a => String.eqb (Account.companyId a) companyId &&
                      String.eqb (Account.code a) code)
            (accounts db)).

(** ** Ordered results

    [ORDER BY] and [Array.prototype.sort] as a stable insertion sort: [before x
    y] says that [x] may stand ahead of [y]; elements that compare equal keep
    the order they came in (where the database leaves the order of equal keys
    open, the statements below do not depend on it). *)
Section StableSort.
Context {A : Type} (before : A -> A -> bool).

Fixpoint insertSorted (x : A) (l : list A) : list A :=
  match l with
  | [] => [x]
  | y :: ys => if before x y then x :: y :: ys else y :: insertSorted x ys
  end.

Definition stableSort (l : list A) : list A :=
  fold_right insertSorted [] l.
End StableSort.

(** ** More of [server/storage.ts]: reading an entry back *)


(** ** More of [server/storage.ts]: exchange rates *)

(** Row of [exchange_rates]: the rate is a [decimal(10,6)], held in
    millionths; the date is a timestamp, held in milliseconds. *)
Module ExchangeRate.
Record t : Set := mk {
  id : string;
  fromCurrency : string;
  toCurrency : string;
  rate : Z;
  date : Z;
  source : string
}.
End ExchangeRate.

(** [InsertExchangeRate]: no [id], no [createdAt]; [source] has a default. *)
Module InsertExchangeRate.
Record t : Set := mk {
  fromCurrency : string;
  toCurrency : string;
  rate : Z;
  date : Z;
  source : option string
}.
End InsertExchangeRate.

(** [getExchangeRate]: the conditions on the pair and, when a date is given,
    [lte(exchangeRates.date, date)]; then [orderBy(desc(date)).limit(1)]. *)
Definition getExchangeRate
    (fromCurrency toCurrency : string) (date : option Z)
    (rates : list ExchangeRate.t) : option ExchangeRate.t :=
  let conditions r :=
    String.eqb (ExchangeRate.fromCurrency r) fromCurrency &&
    String.eqb (ExchangeRate.toCurrency r) toCurrency &&
    match date with
    | Some d => ExchangeRate.date r <=? d
    | None => true
    end in
  hd_error
    (stableSort (fun r r' => ExchangeRate.date r' <=? ExchangeRate.date r)
                (filter conditions rates)).

(** [getExchangeRates] *)
Definition getExchangeRates (rates : list ExchangeRate.t) : list ExchangeRate.t :=
  stableSort (fun r r' => ExchangeRate.date r' <=? ExchangeRate.date r) rates.

(** [createExchangeRate]; [newId] is the id the database draws. *)
Definition createExchangeRate
    (newId : string) (rate : InsertExchangeRate.t) (rates : list ExchangeRate.t)
  : ExchangeRate.t * list ExchangeRate.t :=
  let newRate :=
    ExchangeRate.mk newId
      (InsertExchangeRate.fromCurrency rate) (InsertExchangeRate.toCurrency rate)
      (InsertExchangeRate.rate rate) (InsertExchangeRate.date rate)
      (match InsertExchangeRate.source rate with Some s => s | None => "manual" end) in
  (newRate, (rates ++ [newRate])%list).

(** ** More of [server/storage.ts]: the dashboard figures *)





(** ** More of [client/src/lib/accounting-utils.ts]

    A JavaScript string is taken as the list of its characters; the functions
    below only measure, pad and concatenate, so this is what they do on
    strings of ASCII characters (account codes, years, sequence numbers). *)

(** A filler of [n] characters cut from the repetitions of [pad]; [cur] is
    what is left of the repetition under way. *)
Fixpoint filler (pad cur : string) (n : nat) : string :=
  match n with
  | O => EmptyString
  | S n' =>
      match cur with
      | String c rest => String c (filler pad rest n')
      | EmptyString =>
          match pad with
          | String c rest => String c (filler pad rest n')
          | EmptyString => EmptyString
          end
      end
  end.

(** [String.prototype.padStart(targetLength, padString)] *)
Definition padStart (s : string) (targetLength : nat) (padString : string) : string :=
  if (targetLength <=? String.length s)%nat then s
  else filler padString padString (targetLength - String.length s) ++ s.

(** [formatAccountNumber]: [code.padStart(4, "0")] *)
Definition formatAccountNumber (code : string) : string :=
  padStart code 4 "0".

(** [String(n)] of a natural number: its decimal digits. *)
Definition stringOfNumber (n : nat) : string :=
  DecimalString.NilEmpty.string_of_uint (Nat.to_uint n).

(** [`INV-${year}-${String(sequence).padStart(3, "0")}`] and its two
    siblings, for a year and a sequence that are natural numbers. *)
Definition generateInvoiceNumber (year sequence : nat) : string :=
  "INV-" ++ stringOfNumber year ++ "-" ++ padStart (stringOfNumber sequence) 3 "0".

Definition generateExpenseNumber (year sequence : nat) : string :=
  "EXP-" ++ stringOfNumber year ++ "-" ++ padStart (stringOfNumber sequence) 3 "0".

Definition generateJournalEntryNumber (year sequence : nat) : string :=
  "JE-" ++ stringOfNumber year ++ "-" ++ padStart (stringOfNumber sequence) 3 "0".

(** [getAccountTypeOrder] *)
Definition getAccountTypeOrder (ty : AccountType) : Z :=
  match ty with
  | ASSET => 1
  | LIABILITY => 2
  | EQUITY => 3
  | REVENUE => 4
  | EXPENSE => 5
  end.

(** [sortAccountsByType].  The accounts carry a type of the schema's enum, so
    [order[a.type]] is never missing; [localeCompare] depends on the locale of
    the browser and is a parameter.  [Array.prototype.sort] is stable and puts
    [a] ahead of [b] when the comparison is negative. *)
Section SortAccounts.
Variable localeCompare : string -> string -> Z.

Definition compareAccounts (a b : AccountType * string) : Z :=
  let typeComparison := getAccountTypeOrder (fst a) - getAccountTypeOrder (fst b) in
  if negb (typeComparison =? 0) then typeComparison
  else localeCompare (snd a) (snd b).

Definition sortAccountsByType (accounts : list (AccountType * string))
  : list (AccountType * string) :=
  stableSort (fun a b => compareAccounts a b <=? 0) accounts.
End SortAccounts.

(** * Notions used in the statements *)

(** Primary key of [accounts]: no two rows carry the same id. *)
Definition pk_accounts (rows : list Account.t) : Prop :=
  NoDup (map Account.id rows).

(** A decision procedure for it, to run on concrete tables. *)
Fixpoint distinct (ids : list string) : bool :=
  match ids with
  | [] => true
  | x :: rest => negb (existsb (String.eqb x) rest) && distinct rest
  end.

(** [bump f rows] adds [f a] to the balance of every row [a]. *)
Definition bump (f : Account.t -> Z) (rows : list Account.t) : list Account.t :=
  map (fun a => Account.set_balance a (Account.balance a + f a)) rows.


(** What one line adds to the balance of row [a]. *)
Definition lineDelta (line : Line.t) (a : Account.t) : Z :=
  if String.eqb (Account.id a) (Line.accountId line)
  then if isDebitNormal (Account.type a)
       then Line.debitAmount line - Line.creditAmount line
       else Line.creditAmount line - Line.debitAmount line
  else 0.

(** What a list of lines adds to the balance of row [a]. *)
Definition netDelta (lines : list Line.t) (a : Account.t) : Z :=
  fold_right (fun line acc => lineDelta line a + acc) 0 lines.

(** A function of the row that does not look at the balance. *)
Definition balance_blind {A} (f : Account.t -> A) : Prop :=
  forall a b, f (Account.set_balance a b) = f a.

(** Example data: an account row, a debit line, a credit line. *)
Definition account (id companyId : string) (ty : AccountType) (balance : Money)
  : Account.t :=
  Account.mk id companyId id id ty None None true balance "USD".

Definition debitLine (accountId : string) (amount : Money) : Line.t :=
  Line.mk accountId None amount 0 "USD" "1".

Definition creditLine (accountId : string) (amount : Money) : Line.t :=
  Line.mk accountId None 0 amount "USD" "1".

(** The cents [lo], [lo + 1], ..., [n] of them. *)
Definition centsRange (lo : Z) (n : nat) : list Z :=
  map (fun i => lo + Z.of_nat i) (seq 0 n).

(** On every account type, balance and pair of amounts of the given lists the
    doubles give the number [calculateAccountBalance] gives on cents. *)
Definition binary64_agrees_on (balances amounts : list Z) : bool :=
  forallb (fun ty =>
    forallb (fun b =>
      forallb (fun d =>
        forallb (fun c =>
          match Binary64.newBalance ty b d c with
          | Some n => n =? calculateAccountBalance b ty d c
          | None => false
          end) amounts) amounts) balances)
    [ASSET; LIABILITY; EQUITY; REVENUE; EXPENSE].

(** A line passes the three tests of the amounts loop. *)
Definition lineOk (l : Line.t) : Prop :=
  0 <= Line.debitAmount l /\ 0 <= Line.creditAmount l /\
  ~ (0 < Line.debitAmount l /\ 0 < Line.creditAmount l) /\
  ~ (Line.debitAmount l = 0 /\ Line.creditAmount l = 0).

(** The account a line names exists and belongs to the company. *)
Definition accountOf (companyId : string) (db : Db) (l : Line.t) : Prop :=
  exists a, In a (accounts db) /\ Account.id a = Line.accountId l /\
            Account.companyId a = companyId.

(** The totals pass the tolerance test: at most one cent apart, and let
    through by the doubles when exactly one cent apart. *)
Definition withinTolerance (lines : list Line.t) : Prop :=
  Z.abs (totalDebits lines - totalCredits lines) <= 1 /\
  (Z.abs (totalDebits lines - totalCredits lines) = 1 ->
   Binary64.unbalanced lines = false).

(** What the two handlers let through. *)
Definition acceptable (companyId : string) (lines : list Line.t) (db : Db) : Prop :=
  (2 <= List.length lines)%nat /\
  Forall lineOk lines /\
  withinTolerance lines /\
  Forall (accountOf companyId db) lines.





(** The line with the debit and credit amounts exchanged. *)
Definition swapLine (l : Line.t) : Line.t :=
  Line.mk (Line.accountId l) (Line.description l)
          (Line.creditAmount l) (Line.debitAmount l)
          (Line.currency l) (Line.exchangeRate l).



(** Sum of a list of integers. *)
Definition zsum (xs : list Z) : Z := fold_right Z.add 0 xs.












(** The patch that sets what [p] sets and then what [q] sets. *)
Definition mergePatch (p q : AccountPatch.t) : AccountPatch.t :=
  let over {A} (x y : option A) := match y with Some v => Some v | None => x end in
  AccountPatch.mk
    (over (AccountPatch.companyId p) (AccountPatch.companyId q))
    (over (AccountPatch.code p) (AccountPatch.code q))
    (over (AccountPatch.name p) (AccountPatch.name q))
    (over (AccountPatch.type p) (AccountPatch.type q))
    (over (AccountPatch.parentId p) (AccountPatch.parentId q))
    (over (AccountPatch.description p) (AccountPatch.description q))
    (over (AccountPatch.isActive p) (AccountPatch.isActive q))
    (over (AccountPatch.balance p) (AccountPatch.balance q))
    (over (AccountPatch.currency p) (AccountPatch.currency q)).

(** ** Notions for the rates, the dashboard and the client utilities *)

(** A stored rate answers a lookup: it is for the pair and, when a date is
    asked for, not later than it. *)
Definition answers (fromCurrency toCurrency : string) (date : option Z)
    (r : ExchangeRate.t) : Prop :=
  ExchangeRate.fromCurrency r = fromCurrency /\
  ExchangeRate.toCurrency r = toCurrency /\
  forall d, date = Some d -> ExchangeRate.date r <= d.




(** [n] characters "0". *)
Fixpoint zeros (n : nat) : string :=
  match n with
  | O => EmptyString
  | S n' => String "0"%char (zeros n')
  end.

(** The number a string of digits writes, if it is one. *)
Definition numberOfString (s : string) : option nat :=
  option_map Nat.of_uint (DecimalString.NilEmpty.uint_of_string s).

(** No character of the string is the dash. *)
Fixpoint noDash (s : string) : Prop :=
  match s with
  | EmptyString => True
  | String c rest => c <> "-"%char /\ noDash rest
  end.

(** [a] may stand ahead of [b] in the chart: its type comes earlier, or the
    types are the same and its code is not after the code of [b]. *)
Definition ahead (localeCompare : string -> string -> Z)
    (a b : AccountType * string) : Prop :=
  getAccountTypeOrder (fst a) < getAccountTypeOrder (fst b) \/
  (fst a = fst b /\ localeCompare (snd a) (snd b) <= 0).

(** Codes compared by their length: a total order to run the sort with. *)
Definition byLength (x y : string) : Z :=
  Z.of_nat (String.length x) - Z.of_nat (String.length y).

(** * Properties *)


(** ** The accounts table *)

Lemma distinct_NoDup (ids : list string) :
  distinct ids = true -> NoDup ids.
Proof.
  induction ids as [|x rest IH]; simpl; intros H; constructor.
  - apply andb_prop in H as [H _]. intros Hin.
    apply negb_true_iff in H.
    assert (existsb (String.eqb x) rest = true) as E.
    { apply existsb_exists. exists x. split; [assumption | apply String.eqb_refl]. }
    congruence.
  - apply IH. now apply andb_prop in H as [_ H].
Qed.

Lemma selectAccount_In (id : string) (rows : list Account.t) (a : Account.t) :
  selectAccount id rows = Some a -> In a rows /\ Account.id a = id.
Proof.
  unfold selectAccount. induction rows as [|r rows IH]; simpl; [discriminate|].
  destruct (String.eqb (Account.id r) id) eqn:E; simpl.
  - intros [= <-]. split; [now left | now apply String.eqb_eq].
  - intros H. destruct (IH H) as [Hin Hid]. split; [now right | assumption].
Qed.

Lemma selectAccount_None (id : string) (rows : list Account.t) :
  selectAccount id rows = None ->
  forall a, In a rows -> String.eqb (Account.id a) id = false.
Proof.
  unfold selectAccount. induction rows as [|r rows IH]; simpl; [contradiction|].
  destruct (String.eqb (Account.id r) id) eqn:E; simpl; [discriminate|].
  intros H a [<- | Hin]; [assumption | now apply IH].
Qed.

Lemma pk_unique (rows : list Account.t) (a r : Account.t) :
  pk_accounts rows -> In a rows -> In r rows ->
  Account.id r = Account.id a -> r = a.
Proof.
  unfold pk_accounts. induction rows as [|x rows IH]; simpl; [contradiction|].
  intros Hnd Ha Hr Hid. inversion Hnd as [|? ? Hnotin Hnd']; subst.
  destruct Ha as [<- | Ha], Hr as [<- | Hr].
  - reflexivity.
  - exfalso. apply Hnotin. rewrite <- Hid. now apply in_map.
  - exfalso. apply Hnotin. rewrite Hid. now apply in_map.
  - now apply IH.
Qed.

(** Under the primary key, [selectAccount] finds exactly the rows of the
    table. *)
Lemma selectAccount_pk (rows : list Account.t) (a : Account.t) :
  pk_accounts rows -> In a rows -> selectAccount (Account.id a) rows = Some a.
Proof.
  intros Hpk Hin.
  destruct (selectAccount (Account.id a) rows) as [r|] eqn:Hs.
  - destruct (selectAccount_In _ _ _ Hs) as [Hr Hid].
    f_equal. now apply (pk_unique rows).
  - pose proof (selectAccount_None _ _ Hs a Hin) as E.
    now rewrite String.eqb_refl in E.
Qed.

(** *** Posting in closed form

    Under the primary key each loop body, and so each loop, is a [bump]. *)

Lemma lineDelta_blind (line : Line.t) : balance_blind (lineDelta line).
Proof. intros a b. reflexivity. Qed.

Lemma netDelta_blind (lines : list Line.t) : balance_blind (netDelta lines).
Proof.
  intros a b. induction lines as [|l ls IH]; simpl; [reflexivity|].
  now rewrite IH, lineDelta_blind.
Qed.

Lemma set_balance_same (a : Account.t) :
  Account.set_balance a (Account.balance a) = a.
Proof. now destruct a. Qed.

Lemma bump_ids (f : Account.t -> Z) (rows : list Account.t) :
  map Account.id (bump f rows) = map Account.id rows.
Proof. unfold bump. rewrite map_map. now apply map_ext. Qed.

Lemma bump_pk (f : Account.t -> Z) (rows : list Account.t) :
  pk_accounts rows -> pk_accounts (bump f rows).
Proof. unfold pk_accounts. now rewrite bump_ids. Qed.

Lemma bump_zero (f : Account.t -> Z) (rows : list Account.t) :
  (forall a, In a rows -> f a = 0) -> bump f rows = rows.
Proof.
  intros H. unfold bump. rewrite <- (map_id rows) at 2.
  apply map_ext_in. intros a Ha. rewrite (H a Ha), Z.add_0_r.
  apply set_balance_same.
Qed.

Lemma bump_bump (f g : Account.t -> Z) (rows : list Account.t) :
  balance_blind f ->
  bump f (bump g rows) = bump (fun a => g a + f a) rows.
Proof.
  intros Hf. unfold bump. rewrite map_map. apply map_ext. intros a.
  rewrite Hf. unfold Account.set_balance. simpl. f_equal. lia.
Qed.


Lemma applyLine_bump (rows : list Account.t) (line : Line.t) :
  pk_accounts rows -> applyLine rows line = bump (lineDelta line) rows.
Proof.
  intros Hpk. unfold applyLine.
  destruct (selectAccount (Line.accountId line) rows) as [a|] eqn:Hs.
  - destruct (selectAccount_In _ _ _ Hs) as [Hin Hid].
    unfold setBalanceWhere, bump, lineDelta, parseFloat, toFixed2.
    apply map_ext_in. intros r Hr.
    destruct (String.eqb (Account.id r) (Account.id a)) eqn:E.
    + apply String.eqb_eq in E.
      assert (r = a) by now apply (pk_unique rows). subst r.
      rewrite Hid, String.eqb_refl.
      destruct (isDebitNormal (Account.type a)); reflexivity.
    + rewrite Hid in E. rewrite E, Z.add_0_r. symmetry. apply set_balance_same.
  - symmetry. apply bump_zero. intros a Ha. unfold lineDelta.
    now rewrite (selectAccount_None _ _ Hs a Ha).
Qed.


Lemma applyLines_bump (lines : list Line.t) (rows : list Account.t) :
  pk_accounts rows -> applyLines lines rows = bump (netDelta lines) rows.
Proof.
  unfold applyLines. revert rows.
  induction lines as [|l ls IH]; intros rows Hpk; simpl.
  - symmetry. now apply bump_zero.
  - rewrite applyLine_bump by assumption.
    rewrite IH by now apply bump_pk.
    apply bump_bump, netDelta_blind.
Qed.




Lemma selectAccount_setBalanceWhere_other
    (id id' : string) (nb : Money) (rows : list Account.t) :
  String.eqb id' id = false ->
  selectAccount id (setBalanceWhere id' nb rows) = selectAccount id rows.
Proof.
  intros Hne. unfold selectAccount, setBalanceWhere.
  induction rows as [|r rows IH]; simpl; [reflexivity|].
  destruct (String.eqb (Account.id r) id') eqn:E'.
  - apply String.eqb_eq in E'. simpl. rewrite E', Hne. exact IH.
  - destruct (String.eqb (Account.id r) id); simpl; [reflexivity | exact IH].
Qed.

(** ** Binary64 checks of the concrete inputs

    On the inputs the examples below use, the doubles give the cents of the
    embedding: the four postings of the specification, the sale of 1000.00 and
    its correction, and the tolerance test.  One cent of difference is where
    the doubles decide case by case: 0.02 against 0.01 and 0.01 against 0.02
    pass the test, 100.01 against 100.00 does not. *)
Lemma binary64_postings :
  Binary64.newBalance ASSET 10000 5000 0 = Some 15000 /\
  Binary64.newBalance ASSET 10000 0 3000 = Some 7000 /\
  Binary64.newBalance LIABILITY 10000 0 5000 = Some 15000 /\
  Binary64.newBalance LIABILITY 10000 3000 0 = Some 7000 /\
  Binary64.newBalance ASSET 250000 100000 0 = Some 350000 /\
  Binary64.newBalance REVENUE 70000 0 100000 = Some 170000 /\
  Binary64.newBalance ASSET 0 2 0 = Some 2 /\
  Binary64.newBalance REVENUE 0 0 1 = Some 1.
Proof. vm_compute. repeat split. Qed.

Lemma binary64_tolerance :
  Binary64.unbalanced [debitLine "A" 2; creditLine "B" 1] = false /\
  Binary64.unbalanced [debitLine "A" 1; creditLine "B" 2] = false /\
  Binary64.unbalanced [debitLine "A" 10000; creditLine "B" 9900] = true /\
  Binary64.unbalanced [debitLine "A" 10001; creditLine "B" 10000] = true /\
  Binary64.toFixed2 (Binary64.total [2; 0]) = Some 2 /\
  Binary64.toFixed2 (Binary64.total [1; 0]) = Some 1.
Proof. vm_compute. repeat split. Qed.

(** Exhaustively on a small range: every account type, every balance from
    -0.50 to 0.50 and every debit and credit from 0.00 to 0.10. *)
Lemma binary64_agrees_small :
  binary64_agrees_on (centsRange (-50) 101) (centsRange 0 11) = true.
Proof. vm_compute. reflexivity. Qed.

(** ** C1: the directional rule *)



(** ** The validator *)

Lemma orElse_None (r k : option ApiError) :
  r >>? k = None <-> r = None /\ k = None.
Proof. destruct r; simpl; intuition congruence. Qed.

Lemma checkPayload_None (lines : list Line.t) :
  checkPayload lines = None <-> (2 <= List.length lines)%nat.
Proof.
  unfold checkPayload.
  destruct (Nat.ltb_spec (List.length lines) 2); split; intros; try lia; congruence.
Qed.

Lemma checkLineAmounts_None (lines : list Line.t) :
  checkLineAmounts lines = None <-> Forall lineOk lines.
Proof.
  induction lines as [|l ls IH]; simpl.
  - split; [constructor | reflexivity].
  - unfold parseFloat.
    destruct (Z.ltb_spec (Line.debitAmount l) 0) as [Hd|Hd];
      [split; [discriminate | intros F; inversion F as [|? ? Ok _]; unfold lineOk in Ok; lia]|].
    destruct (Z.ltb_spec (Line.creditAmount l) 0) as [Hc|Hc];
      [split; [discriminate | intros F; inversion F as [|? ? Ok _]; unfold lineOk in Ok; lia]|].
    simpl.
    destruct (Z.gtb_spec (Line.debitAmount l) 0) as [Hd'|Hd'];
      destruct (Z.gtb_spec (Line.creditAmount l) 0) as [Hc'|Hc'];
      destruct (Z.eqb_spec (Line.debitAmount l) 0) as [Hd0|Hd0];
      destruct (Z.eqb_spec (Line.creditAmount l) 0) as [Hc0|Hc0];
      simpl; try lia;
      try (split; [discriminate | intros F; inversion F as [|? ? Ok _]; unfold lineOk in Ok; lia]);
      (rewrite IH; split;
       [ intros F; constructor; [unfold lineOk; lia | exact F]
       | intros F; now inversion F ]).
Qed.

Lemma checkBalanced_None (lines : list Line.t) :
  checkBalanced lines = None <-> withinTolerance lines.
Proof.
  unfold checkBalanced, withinTolerance.
  destruct (Z.gtb_spec (Z.abs (totalDebits lines - totalCredits lines)) 1) as [Hgt|Hle];
    simpl; [split; [discriminate | lia]|].
  destruct (Z.eqb_spec (Z.abs (totalDebits lines - totalCredits lines)) 1) as [Heq|Hne];
    simpl; [|split; [intros _; split; [lia | contradiction] | reflexivity]].
  destruct (Binary64.unbalanced lines).
  - split; [discriminate|]. intros [_ H]. discriminate (H Heq).
  - split; [intros _; split; [lia | reflexivity] | reflexivity].
Qed.


Lemma equal_totals_withinTolerance (lines : list Line.t) :
  totalDebits lines = totalCredits lines -> withinTolerance lines.
Proof. intros H. unfold withinTolerance. rewrite H. split; lia. Qed.

Lemma checkAccountIds_None (valid ids : list string) :
  checkAccountIds valid ids = None <-> Forall (fun id => In id valid) ids.
Proof.
  induction ids as [|x xs IH]; simpl.
  - split; [constructor | reflexivity].
  - destruct (existsb (String.eqb x) valid) eqn:E.
    + rewrite IH. apply existsb_exists in E as (y & Hy & Exy).
      apply String.eqb_eq in Exy. subst y.
      split; [now constructor | intros H; now inversion H].
    + split; [discriminate|]. intros H. inversion H as [|? ? Hin _]; subst.
      assert (existsb (String.eqb x) valid = true) as E'.
      { apply existsb_exists. exists x. split; [assumption | apply String.eqb_refl]. }
      congruence.
Qed.

Lemma checkAccounts_None (companyId : string) (lines : list Line.t) (db : Db) :
  checkAccounts companyId lines db = None <->
  Forall (accountOf companyId db) lines.
Proof.
  unfold checkAccounts, getAccountsByCompany, accountOf.
  rewrite checkAccountIds_None, Forall_map, !Forall_forall.
  split; intros H l Hl; specialize (H l Hl).
  - apply in_map_iff in H as (a & Hid & Ha).
    apply filter_In in Ha as [Ha Hc]. apply String.eqb_eq in Hc. now exists a.
  - destruct H as (a & Ha & Hid & Hc). apply in_map_iff. exists a.
    split; [assumption|]. apply filter_In. split; [assumption|].
    now apply String.eqb_eq.
Qed.

Lemma validateLines_None (companyId : string) (lines : list Line.t) (db : Db) :
  validateLines companyId lines db = None <->
  Forall lineOk lines /\
  withinTolerance lines /\
  Forall (accountOf companyId db) lines.
Proof.
  unfold validateLines.
  now rewrite !orElse_None, checkLineAmounts_None, checkBalanced_None,
    checkAccounts_None.
Qed.

Lemma validation_None (companyId : string) (lines : list Line.t) (db : Db) :
  checkPayload lines >>? validateLines companyId lines db = None <->
  acceptable companyId lines db.
Proof.
  unfold acceptable.
  now rewrite orElse_None, checkPayload_None, validateLines_None.
Qed.


(** ** C3: a rejected Create changes nothing *)



(** ** C8: Update of an entry that does not exist *)

(** C8 as stated fails on the handler: with fewer than 2 lines the payload
    schema answers before the entry is looked up, and the answer is not
    NotFound. *)
Lemma update_missing_entry_counterexample :
  let db := mkDb [account "A" "acme" ASSET 0] [] [] 0 in
  let entry := EntryUpdate.mk None None None None None in
  getJournalEntry 7 db = None /\
  putJournalEntry 7 entry [debitLine "A" 100] db = (Failure 400 TooFewLines, db) /\
  Failure 400 TooFewLines <> Failure 404 NotFound.
Proof. repeat split; discriminate. Qed.

(** C8, amended.  When the entry id matches no journal entry nothing is
    written: the storage operation [updateJournalEntry] throws "Journal entry
    not found" whatever the lines, and the handler answers 404 NotFound once
    the payload has parsed (at least 2 lines); a payload with fewer than 2
    lines is answered by the schema's own error.  In every case the database
    is left as the request found it. *)
Theorem update_missing_entry
    (id : nat) (entry : EntryUpdate.t) (upd : EntryPatch.t)
    (lines : list Line.t) (db : Db) :
  getJournalEntry id db = None ->
  updateJournalEntry id upd lines db = (inl JournalEntryNotFound, db) /\
  ((2 <= List.length lines)%nat ->
   putJournalEntry id entry lines db = (Failure 404 NotFound, db)) /\
  ((List.length lines < 2)%nat ->
   putJournalEntry id entry lines db = (Failure 400 TooFewLines, db)) /\
  snd (putJournalEntry id entry lines db) = db.
Proof.
  intros Hnone. unfold updateJournalEntry, putJournalEntry, checkPayload.
  rewrite Hnone.
  destruct (Nat.ltb_spec (List.length lines) 2); repeat split; intros; lia || reflexivity.
Qed.

Lemma update_missing_entry_witness :
  let db := mkDb [account "A" "acme" ASSET 0; account "B" "acme" REVENUE 0] [] [] 0 in
  let entry := EntryUpdate.mk None None None None None in
  let lines := [debitLine "A" 100; creditLine "B" 100] in
  getJournalEntry 7 db = None /\
  putJournalEntry 7 entry lines db = (Failure 404 NotFound, db).
Proof.
  intros db entry lines.
  assert (getJournalEntry 7 db = None) as Hnone by reflexivity.
  split; [exact Hnone|].
  apply (update_missing_entry 7 entry
           (EntryPatch.mk None None None None None None None) lines db Hnone).
  simpl. lia.
Defined.

(** ** C9: which error is reported *)









(** ** Lines whose account is missing *)

Lemma selectAccount_None_iff (id : string) (rows : list Account.t) :
  selectAccount id rows = None <-> ~ In id (map Account.id rows).
Proof.
  split.
  - intros Hs Hin. apply in_map_iff in Hin as (a & <- & Ha).
    pose proof (selectAccount_None _ _ Hs a Ha) as E.
    now rewrite String.eqb_refl in E.
  - intros Hnot. destruct (selectAccount id rows) as [a|] eqn:Hs; [|reflexivity].
    destruct (selectAccount_In _ _ _ Hs) as [Ha <-].
    exfalso. apply Hnot. now apply in_map.
Qed.









Lemma filter_of_line_same (id : nat) (lines : list Line.t) :
  filter (fun r => Nat.eqb (JournalEntryLine.journalEntryId r) id)
         (map (JournalEntryLine.of_line id) lines) =
  map (JournalEntryLine.of_line id) lines.
Proof.
  induction lines as [|l ls IH]; simpl; [reflexivity|].
  now rewrite Nat.eqb_refl, IH.
Qed.

Lemma filter_of_line_other (id id' : nat) (lines : list Line.t) :
  id' <> id ->
  filter (fun r => Nat.eqb (JournalEntryLine.journalEntryId r) id)
         (map (JournalEntryLine.of_line id') lines) = [].
Proof.
  intros Hne. induction lines as [|l ls IH]; simpl; [reflexivity|].
  destruct (Nat.eqb_spec id' id); [contradiction | exact IH].
Qed.

Lemma filter_deleted (id : nat) (rows : list JournalEntryLine.t) :
  filter (fun r => Nat.eqb (JournalEntryLine.journalEntryId r) id)
    (filter (fun r => negb (Nat.eqb (JournalEntryLine.journalEntryId r) id)) rows) = [].
Proof.
  induction rows as [|r rows IH]; simpl; [reflexivity|].
  destruct (Nat.eqb (JournalEntryLine.journalEntryId r) id) eqn:E; simpl;
    [exact IH | now rewrite E].
Qed.

Lemma filter_kept (id id' : nat) (rows : list JournalEntryLine.t) :
  id' <> id ->
  filter (fun r => Nat.eqb (JournalEntryLine.journalEntryId r) id)
    (filter (fun r => negb (Nat.eqb (JournalEntryLine.journalEntryId r) id')) rows) =
  filter (fun r => Nat.eqb (JournalEntryLine.journalEntryId r) id) rows.
Proof.
  intros Hne. induction rows as [|r rows IH]; simpl; [reflexivity|].
  destruct (Nat.eqb_spec (JournalEntryLine.journalEntryId r) id') as [E'|E']; simpl.
  - destruct (Nat.eqb_spec (JournalEntryLine.journalEntryId r) id); [congruence | exact IH].
  - now rewrite IH.
Qed.


(** ** C10: the storage layer skips a line whose account is missing *)



(** ** C2: Update reverses, then applies *)

Lemma reverseLine_swap (rows : list Account.t) (l : Line.t) :
  reverseLine rows l = applyLine rows (swapLine l).
Proof.
  unfold reverseLine, applyLine, swapLine, parseFloat, toFixed2. simpl.
  destruct (selectAccount (Line.accountId l) rows) as [a|]; [|reflexivity].
  f_equal. destruct (isDebitNormal (Account.type a)); lia.
Qed.






(** ** Sums *)

Lemma fold_left_zsum {A} (g : A -> Z) (xs : list A) (z : Z) :
  fold_left (fun sum x => sum + g x) xs z = z + zsum (map g xs).
Proof.
  revert z. induction xs as [|x xs IH]; intros z; simpl; [lia|].
  rewrite IH. lia.
Qed.




Lemma zsum_map_ext {A} (f g : A -> Z) (xs : list A) :
  (forall x, In x xs -> f x = g x) -> zsum (map f xs) = zsum (map g xs).
Proof. intros H. f_equal. now apply map_ext_in. Qed.



(** ** The lines stored for an entry *)



Lemma linesOfEntry_update
    (id : nat) (upd : EntryPatch.t) (newLines : list Line.t) (db db' : Db)
    (r : JournalEntry.t) (id' : nat) :
  updateJournalEntry id upd newLines db = (inr r, db') ->
  linesOfEntry id' db' =
  if Nat.eqb id id' then map (JournalEntryLine.of_line id) newLines
  else linesOfEntry id' db.
Proof.
  unfold updateJournalEntry.
  destruct (getJournalEntry id db); [|discriminate].
  intros [= _ <-]. unfold linesOfEntry. simpl. rewrite filter_app.
  destruct (Nat.eqb_spec id id') as [<- | Hne].
  - now rewrite filter_deleted, filter_of_line_same.
  - rewrite filter_kept by assumption.
    rewrite filter_of_line_other by assumption. apply app_nil_r.
Qed.

(** What an accepted request is, for each handler. *)
Lemma postJournalEntry_Json
    (entry : EntryRequest.t) (lines : list Line.t) (db db' : Db)
    (e : JournalEntry.t) :
  postJournalEntry entry lines db = (Json e, db') ->
  acceptable (EntryRequest.companyId entry) lines db /\
  (e, db') =
    createJournalEntry
      (InsertJournalEntry.mk
         (EntryRequest.companyId entry) (EntryRequest.entryNumber entry)
         (EntryRequest.date entry) (EntryRequest.description entry)
         (EntryRequest.reference entry) (totalDebits lines) "system_user_id_1")
      lines db.
Proof.
  unfold postJournalEntry.
  destruct (checkPayload lines >>? _) eqn:V; [discriminate|].
  apply validation_None in V. intros H. split; [exact V|].
  unfold toFixed2 in H.
  destruct (createJournalEntry _ lines db). now injection H as -> ->.
Qed.

Lemma putJournalEntry_Json
    (id : nat) (entry : EntryUpdate.t) (lines : list Line.t) (db db' : Db)
    (r : JournalEntry.t) :
  putJournalEntry id entry lines db = (Json r, db') ->
  exists existing,
    getJournalEntry id db = Some existing /\
    acceptable (JournalEntry.companyId existing) lines db /\
    updateJournalEntry id
      (EntryPatch.mk None (EntryUpdate.entryNumber entry) (EntryUpdate.date entry)
         (EntryUpdate.description entry) (EntryUpdate.reference entry)
         (Some (totalDebits lines)) None)
      lines db = (inr r, db').
Proof.
  unfold putJournalEntry.
  destruct (checkPayload lines) eqn:P; [discriminate|].
  destruct (getJournalEntry id db) as [existing|] eqn:G; [|discriminate].
  destruct (validateLines _ lines db) eqn:V; [discriminate|].
  intros H. exists existing. split; [reflexivity|]. split.
  - apply validation_None. now rewrite P, V.
  - unfold toFixed2 in H.
    destruct (updateJournalEntry id _ lines db) as [[[]|r'] d]; [discriminate|].
    now injection H as -> ->.
Qed.


Lemma getJournalEntry_update
    (id : nat) (upd : EntryPatch.t) (lines : list Line.t) (db db' : Db)
    (r : JournalEntry.t) :
  updateJournalEntry id upd lines db = (inr r, db') ->
  getJournalEntry id db' = Some r /\
  exists existing, getJournalEntry id db = Some existing /\ r = patchEntry existing upd.
Proof.
  unfold updateJournalEntry.
  destruct (getJournalEntry id db) as [existing|] eqn:G; [|discriminate].
  intros [= <- <-]. split; [|now exists existing].
  unfold getJournalEntry in *. simpl.
  induction (journalEntries db) as [|x xs IH]; simpl in *; [discriminate|].
  destruct (Nat.eqb (JournalEntry.id x) id) eqn:E; simpl in *.
  - rewrite E. simpl. now injection G as ->.
  - rewrite E. now apply IH.
Qed.

(** ** C4: how far apart the two sides of a committed entry can be *)




(** ** C6: the total of a committed entry *)




(** ** C7: who writes a balance *)





(** ** C5: the accounting equation *)


Lemma sumBalances_zsum (k : string) (ty : AccountType) (rows : list Account.t) :
  sumBalances k ty rows =
  zsum (map (fun a => if String.eqb (Account.companyId a) k &&
                         AccountType_eqb (Account.type a) ty
                      then Account.balance a else 0) rows).
Proof.
  unfold sumBalances, parseFloat. rewrite fold_left_zsum. simpl.
  induction rows as [|a rows IH]; simpl; [reflexivity|].
  destruct (String.eqb (Account.companyId a) k); simpl; [|exact IH].
  destruct (AccountType_eqb (Account.type a) ty); simpl; [|exact IH].
  now rewrite IH.
Qed.









Lemma selectAccount_bump (id : string) (f : Account.t -> Z) (rows : list Account.t) :
  selectAccount id (bump f rows) =
  option_map (fun a => Account.set_balance a (Account.balance a + f a))
             (selectAccount id rows).
Proof.
  unfold selectAccount, bump.
  induction rows as [|x rows IH]; simpl; [reflexivity|].
  destruct (String.eqb (Account.id x) id); simpl; [reflexivity | exact IH].
Qed.













(** * Further properties of the posting code *)

(** ** What a posting leaves alone *)

Lemma setBalanceWhere_blind (id : string) (b : Money) (rows : list Account.t) :
  map (fun a => Account.set_balance a 0) (setBalanceWhere id b rows) =
  map (fun a => Account.set_balance a 0) rows.
Proof.
  unfold setBalanceWhere. rewrite map_map. apply map_ext. intros a.
  now destruct (String.eqb (Account.id a) id).
Qed.

Lemma applyLine_blind (rows : list Account.t) (l : Line.t) :
  map (fun a => Account.set_balance a 0) (applyLine rows l) =
  map (fun a => Account.set_balance a 0) rows.
Proof.
  unfold applyLine. destruct (selectAccount _ rows); [|reflexivity].
  apply setBalanceWhere_blind.
Qed.

Lemma reverseLine_blind (rows : list Account.t) (l : Line.t) :
  map (fun a => Account.set_balance a 0) (reverseLine rows l) =
  map (fun a => Account.set_balance a 0) rows.
Proof.
  unfold reverseLine. destruct (selectAccount _ rows); [|reflexivity].
  apply setBalanceWhere_blind.
Qed.

Lemma applyLine_other (rows : list Account.t) (l : Line.t) (id : string) :
  Line.accountId l <> id ->
  selectAccount id (applyLine rows l) = selectAccount id rows.
Proof.
  intros Hne. unfold applyLine.
  destruct (selectAccount (Line.accountId l) rows) as [a|] eqn:Hs; [|reflexivity].
  apply selectAccount_setBalanceWhere_other.
  destruct (selectAccount_In _ _ _ Hs) as [_ Hid]. rewrite Hid.
  now apply String.eqb_neq.
Qed.

Lemma reverseLine_other (rows : list Account.t) (l : Line.t) (id : string) :
  Line.accountId l <> id ->
  selectAccount id (reverseLine rows l) = selectAccount id rows.
Proof.
  intros Hne. rewrite reverseLine_swap. now apply applyLine_other.
Qed.

Lemma applyLines_frame (lines : list Line.t) (rows : list Account.t) :
  map (fun a => Account.set_balance a 0) (applyLines lines rows) =
  map (fun a => Account.set_balance a 0) rows /\
  forall id, ~ In id (map Line.accountId lines) ->
             selectAccount id (applyLines lines rows) = selectAccount id rows.
Proof.
  unfold applyLines. revert rows.
  induction lines as [|l ls IH]; intros rows; simpl; [now split|].
  destruct (IH (applyLine rows l)) as [Hb Hf]. split.
  - now rewrite Hb, applyLine_blind.
  - intros id Hid. rewrite Hf by tauto. apply applyLine_other. tauto.
Qed.

Lemma reverseLines_frame (lines : list Line.t) (rows : list Account.t) :
  map (fun a => Account.set_balance a 0) (reverseLines lines rows) =
  map (fun a => Account.set_balance a 0) rows /\
  forall id, ~ In id (map Line.accountId lines) ->
             selectAccount id (reverseLines lines rows) = selectAccount id rows.
Proof.
  unfold reverseLines. revert rows.
  induction lines as [|l ls IH]; intros rows; simpl; [now split|].
  destruct (IH (reverseLine rows l)) as [Hb Hf]. split.
  - now rewrite Hb, reverseLine_blind.
  - intros id Hid. rewrite Hf by tauto. apply reverseLine_other. tauto.
Qed.

(** X1.  [createJournalEntry] and [updateJournalEntry] write balances and
    nothing else in [accounts]: the table keeps its rows in place with their
    ids, companies, codes, names, types and flags, and the lookup of any
    account that no line of the call names (for an update: no stored line of
    the entry and no new line) returns the row it returned before. *)
Theorem posting_writes_only_named_balances
    (entry : InsertJournalEntry.t) (id : nat) (upd : EntryPatch.t)
    (lines : list Line.t) (db : Db) :
  (let db' := snd (createJournalEntry entry lines db) in
   map (fun a => Account.set_balance a 0) (accounts db') =
   map (fun a => Account.set_balance a 0) (accounts db) /\
   forall accountId, ~ In accountId (map Line.accountId lines) ->
                     getAccount accountId db' = getAccount accountId db) /\
  (let db' := snd (updateJournalEntry id upd lines db) in
   map (fun a => Account.set_balance a 0) (accounts db') =
   map (fun a => Account.set_balance a 0) (accounts db) /\
   forall accountId,
     ~ In accountId (map Line.accountId lines) ->
     ~ In accountId (map JournalEntryLine.accountId (linesOfEntry id db)) ->
     getAccount accountId db' = getAccount accountId db).
Proof.
  split.
  - simpl. unfold getAccount. simpl. apply applyLines_frame.
  - unfold updateJournalEntry.
    destruct (getJournalEntry id db); [|now split].
    unfold getAccount. simpl.
    set (old := map JournalEntryLine.to_line (linesOfEntry id db)).
    destruct (applyLines_frame lines (reverseLines old (accounts db))) as [Hb Hf].
    destruct (reverseLines_frame old (accounts db)) as [Hb' Hf'].
    split; [now rewrite Hb, Hb'|].
    intros accountId Hnew Hold. rewrite Hf by assumption. apply Hf'.
    unfold old. rewrite map_map. exact Hold.
Qed.

(** An entry posted on cash only: the lookup of the sales account gives the
    same row before and after. *)
Lemma posting_writes_only_named_balances_witness :
  let sales := account "sales" "acme" REVENUE 70000 in
  let db := mkDb [account "cash" "acme" ASSET 250000; sales] [] [] 0 in
  let entry := InsertJournalEntry.mk "acme" "JE-1" "2024-01-01" "x" None 500 "u" in
  let lines := [debitLine "cash" 500; creditLine "cash" 500] in
  ~ In "sales" (map Line.accountId lines) /\
  getAccount "sales" (snd (createJournalEntry entry lines db)) = Some sales.
Proof.
  intros sales db entry lines.
  assert (~ In "sales" (map Line.accountId lines)) as Hno
    by (simpl; intros [H | [H | []]]; discriminate).
  split; [exact Hno|].
  destruct (posting_writes_only_named_balances
              entry 0 (EntryPatch.mk None None None None None None None) lines db)
    as [[_ Hf] _].
  now rewrite (Hf "sales" Hno).
Defined.

(** ** The order of the lines *)




(** ** One update after another *)




(** ** The PUT handler *)



Lemma getJournalEntry_update_other
    (id id' : nat) (upd : EntryPatch.t) (lines : list Line.t) (db db' : Db)
    (r : JournalEntry.t) :
  id' <> id ->
  updateJournalEntry id upd lines db = (inr r, db') ->
  getJournalEntry id' db' = getJournalEntry id' db.
Proof.
  intros Hne. unfold updateJournalEntry.
  destruct (getJournalEntry id db); [|discriminate].
  intros [= _ <-]. unfold getJournalEntry. simpl. f_equal.
  induction (journalEntries db) as [|x xs IH]; simpl; [reflexivity|].
  destruct (Nat.eqb_spec (JournalEntry.id x) id) as [Ex|Ex]; simpl.
  - destruct (Nat.eqb_spec (JournalEntry.id x) id'); [congruence | exact IH].
  - now rewrite IH.
Qed.

(** X5.  An accepted PUT rewrites one entry and keeps what identifies it: the
    entry stored afterwards has the same id, the same company and the same
    creator as before; the entries and the stored lines under every other id
    are read back as they were. *)
Theorem update_keeps_identity
    (id : nat) (entry : EntryUpdate.t) (lines : list Line.t)
    (db db' : Db) (r : JournalEntry.t) :
  putJournalEntry id entry lines db = (Json r, db') ->
  exists existing,
    getJournalEntry id db = Some existing /\
    getJournalEntry id db' = Some r /\
    JournalEntry.id r = JournalEntry.id existing /\
    JournalEntry.companyId r = JournalEntry.companyId existing /\
    JournalEntry.createdBy r = JournalEntry.createdBy existing /\
    forall id', id' <> id ->
      getJournalEntry id' db' = getJournalEntry id' db /\
      linesOfEntry id' db' = linesOfEntry id' db.
Proof.
  intros Hput.
  apply putJournalEntry_Json in Hput as (existing & Hg & _ & Hu).
  exists existing. split; [exact Hg|].
  destruct (getJournalEntry_update _ _ _ _ _ _ Hu) as (Hg' & existing' & Hg'' & ->).
  rewrite Hg in Hg''. injection Hg'' as <-.
  split; [exact Hg'|].
  split; [reflexivity|]. split; [reflexivity|]. split; [reflexivity|].
  intros id' Hne. split.
  - exact (getJournalEntry_update_other id id' _ lines db db' _ Hne Hu).
  - rewrite (linesOfEntry_update _ _ _ _ _ _ id' Hu).
    destruct (Nat.eqb_spec id id'); [congruence | reflexivity].
Qed.

Lemma update_keeps_identity_witness :
  let e0 := JournalEntry.mk 0 "acme" "JE-1" "2024-01-01" "sale" None 10000 "u" in
  let db :=
    mkDb [account "cash" "acme" ASSET 10000; account "sales" "acme" REVENUE 10000]
         [e0]
         [JournalEntryLine.of_line 0 (debitLine "cash" 10000);
          JournalEntryLine.of_line 0 (creditLine "sales" 10000)] 1 in
  let entry := EntryUpdate.mk (Some "JE-1b") None None None (Some 1) in
  let lines := [debitLine "cash" 5000; creditLine "sales" 5000] in
  let r := JournalEntry.mk 0 "acme" "JE-1b" "2024-01-01" "sale" None 5000 "u" in
  let db' := snd (putJournalEntry 0 entry lines db) in
  putJournalEntry 0 entry lines db = (Json r, db') /\
  getJournalEntry 0 db' = Some r /\
  JournalEntry.companyId r = "acme".
Proof.
  intros e0 db entry lines r db'.
  assert (putJournalEntry 0 entry lines db = (Json r, db')) as Hput by reflexivity.
  split; [exact Hput|].
  destruct (update_keeps_identity 0 entry lines db db' r Hput)
    as (existing & Hg & Hg' & _ & Hc & _).
  split; [exact Hg'|]. rewrite Hc.
  assert (Some existing = Some e0) as He by (now rewrite <- Hg).
  injection He as ->. reflexivity.
Defined.

(** ** What an accepted entry looks like *)




(** ** One company's postings and the other companies *)

Lemma sumBalances_bump (k : string) (ty : AccountType) (f : Account.t -> Z)
    (rows : list Account.t) :
  (forall a, In a rows -> Account.companyId a = k -> f a = 0) ->
  sumBalances k ty (bump f rows) = sumBalances k ty rows.
Proof.
  intros Hf. rewrite !sumBalances_zsum. unfold bump. rewrite map_map.
  apply zsum_map_ext. intros a Ha.
  change (Account.companyId (Account.set_balance a (Account.balance a + f a)))
    with (Account.companyId a).
  change (Account.type (Account.set_balance a (Account.balance a + f a)))
    with (Account.type a).
  destruct (String.eqb_spec (Account.companyId a) k) as [E|E]; [|reflexivity].
  simpl. rewrite (Hf a Ha E). destruct (AccountType_eqb _ ty); simpl; lia.
Qed.

Lemma netDelta_other_company (kc : string) (lines : list Line.t) (db : Db)
    (a : Account.t) :
  pk_accounts (accounts db) -> Forall (accountOf kc db) lines ->
  In a (accounts db) -> Account.companyId a <> kc -> netDelta lines a = 0.
Proof.
  intros Hpk Hacc Ha Hne.
  induction Hacc as [|l ls (a0 & Ha0 & Hid & Hc) _ IH]; simpl; [reflexivity|].
  rewrite IH. unfold lineDelta.
  destruct (String.eqb_spec (Account.id a) (Line.accountId l)) as [E|E]; [|lia].
  exfalso. apply Hne. rewrite <- Hc. f_equal.
  apply (pk_unique (accounts db)); try assumption. congruence.
Qed.

(** X7.  A Create accepted for one company touches no other company: under
    the primary key of [accounts], every account of another company is read
    back as it was, and the five totals [getAccountBalances] reports for any
    other company are the same after the request as before. *)
Theorem create_isolated_by_company
    (entry : EntryRequest.t) (lines : list Line.t) (db db' : Db)
    (e : JournalEntry.t) :
  pk_accounts (accounts db) ->
  postJournalEntry entry lines db = (Json e, db') ->
  (forall a, In a (accounts db) ->
             Account.companyId a <> EntryRequest.companyId entry ->
             getAccount (Account.id a) db' = Some a) /\
  (forall k, k <> EntryRequest.companyId entry ->
             getAccountBalances k db' = getAccountBalances k db).
Proof.
  intros Hpk Hpost.
  apply postJournalEntry_Json in Hpost as [(_ & _ & _ & Hacc) Hc].
  assert (accounts db' = bump (netDelta lines) (accounts db)) as Hb.
  { injection Hc as _ ->. simpl. now apply applyLines_bump. }
  split.
  - intros a Ha Hne. unfold getAccount.
    rewrite Hb, selectAccount_bump, (selectAccount_pk _ a Hpk Ha). simpl.
    rewrite (netDelta_other_company _ _ _ _ Hpk Hacc Ha Hne), Z.add_0_r.
    now rewrite set_balance_same.
  - intros k Hk. unfold getAccountBalances. rewrite Hb.
    rewrite !sumBalances_bump; [reflexivity | | | | |];
      intros a Ha Hka; apply (netDelta_other_company _ _ _ _ Hpk Hacc Ha);
      congruence.
Qed.

Lemma create_isolated_by_company_witness :
  let other := account "cash2" "globex" ASSET 4200 in
  let db :=
    mkDb [account "cash" "acme" ASSET 0; other; account "sales" "acme" REVENUE 0]
         [] [] 0 in
  let entry := EntryRequest.mk "acme" "JE-2024-001" "2024-01-01" "sale" None 0 in
  let lines := [debitLine "cash" 100000; creditLine "sales" 100000] in
  let db' := snd (postJournalEntry entry lines db) in
  pk_accounts (accounts db) /\
  (exists e, postJournalEntry entry lines db = (Json e, db')) /\
  getAccount "cash2" db' = Some other /\
  getAccountBalances "globex" db' = getAccountBalances "globex" db.
Proof.
  intros other db entry lines db'.
  assert (pk_accounts (accounts db)) as Hpk by (apply distinct_NoDup; reflexivity).
  split; [exact Hpk|]. split; [eexists; reflexivity|].
  destruct (create_isolated_by_company entry lines db db' _ Hpk eq_refl) as [Ha Hb].
  split.
  - apply (Ha other); [right; now left | discriminate].
  - apply Hb. discriminate.
Defined.

(** ** Account rows: update, create, look up *)

Lemma select_map_other (id id' : string) (g : Account.t -> Account.t)
    (rows : list Account.t) :
  (forall a, Account.id (g a) = Account.id a) -> id' <> id ->
  selectAccount id'
    (map (fun a => if String.eqb (Account.id a) id then g a else a) rows) =
  selectAccount id' rows.
Proof.
  intros Hg Hne. unfold selectAccount.
  induction rows as [|x xs IH]; simpl; [reflexivity|].
  destruct (String.eqb_spec (Account.id x) id) as [E|E].
  - rewrite Hg. destruct (String.eqb_spec (Account.id x) id') as [E'|E'];
      [congruence | exact IH].
  - destruct (String.eqb (Account.id x) id'); simpl; [reflexivity | exact IH].
Qed.

Lemma patchAccount_id (a : Account.t) (p : AccountPatch.t) :
  Account.id (patchAccount a p) = Account.id a.
Proof. reflexivity. Qed.

(** X8.  [updateAccount] touches one account.  With an id that no row
    carries it returns nothing and leaves the database as it was (the PUT
    handler then answers with an empty body, not with an error); in every
    case the ids of the table, row for row, and the journal tables are
    unchanged, and every other account is read back as before. *)
Theorem updateAccount_touches_one
    (id : string) (account : AccountPatch.t) (db : Db) :
  (~ In id (map Account.id (accounts db)) ->
   putAccount id account db = (None, db)) /\
  map Account.id (accounts (snd (updateAccount id account db))) =
    map Account.id (accounts db) /\
  journalEntries (snd (updateAccount id account db)) = journalEntries db /\
  journalEntryLines (snd (updateAccount id account db)) = journalEntryLines db /\
  (forall id', id' <> id ->
     getAccount id' (snd (updateAccount id account db)) = getAccount id' db).
Proof.
  unfold putAccount, updateAccount, getAccount. simpl.
  split; [|split; [|split; [|split]]]; try reflexivity.
  - intros Hno.
    assert (map (fun a => if String.eqb (Account.id a) id
                          then patchAccount a account else a) (accounts db) =
            accounts db) as ->.
    { rewrite <- (map_id (accounts db)) at 2. apply map_ext_in. intros a Ha.
      destruct (String.eqb_spec (Account.id a) id) as [E|E]; [|reflexivity].
      exfalso. apply Hno. rewrite <- E. now apply in_map. }
    apply selectAccount_None_iff in Hno. rewrite Hno. now destruct db.
  - rewrite map_map. apply map_ext. intros a.
    now destruct (String.eqb (Account.id a) id).
  - intros id' Hne. now apply select_map_other.
Qed.

Lemma updateAccount_touches_one_witness :
  let db := mkDb [account "cash" "acme" ASSET 10000] [] [] 0 in
  let body := AccountPatch.mk None None (Some "Petty cash") None None None None None None in
  ~ In "bank" (map Account.id (accounts db)) /\
  putAccount "bank" body db = (None, db).
Proof.
  intros db body.
  assert (~ In "bank" (map Account.id (accounts db))) as Hno
    by (simpl; intros [H | []]; discriminate).
  split; [exact Hno|].
  exact (proj1 (updateAccount_touches_one "bank" body db) Hno).
Defined.

Lemma patchAccount_merge (a : Account.t) (p q : AccountPatch.t) :
  patchAccount (patchAccount a p) q = patchAccount a (mergePatch p q).
Proof.
  destruct a, p as [c1 c2 c3 c4 c5 c6 c7 c8 c9], q as [d1 d2 d3 d4 d5 d6 d7 d8 d9].
  unfold patchAccount, mergePatch. simpl.
  destruct d1, d2, d3, d4, d5, d6, d7, d8, d9; reflexivity.
Qed.

(** X9.  Two account updates in a row are one: updating an account with a
    body and then with a second body returns the same row and leaves the same
    database as a single update with the fields of the first body overridden
    by those of the second. *)
Theorem updateAccount_twice
    (id : string) (p q : AccountPatch.t) (db : Db) :
  updateAccount id q (snd (updateAccount id p db)) =
  updateAccount id (mergePatch p q) db.
Proof.
  unfold updateAccount. simpl.
  assert (map (fun a => if String.eqb (Account.id a) id then patchAccount a q else a)
            (map (fun a => if String.eqb (Account.id a) id then patchAccount a p else a)
               (accounts db)) =
          map (fun a => if String.eqb (Account.id a) id
                        then patchAccount a (mergePatch p q) else a) (accounts db))
    as ->; [|reflexivity].
  rewrite map_map. apply map_ext. intros a.
  destruct (String.eqb (Account.id a) id) eqn:E.
  - rewrite patchAccount_id, E. apply patchAccount_merge.
  - now rewrite E.
Qed.

(** The two storage operations that write a balance agree:
    [updateAccountBalance] with a balance does what [updateAccount] does with
    a body that holds that balance and nothing else. *)
Lemma updateAccountBalance_is_updateAccount
    (id : string) (balance : Money) (db : Db) :
  updateAccountBalance id balance db =
  updateAccount id
    (AccountPatch.mk None None None None None None None (Some balance) None) db.
Proof.
  unfold updateAccountBalance, updateAccount, setBalanceWhere.
  assert (forall a,
            Account.set_balance a balance =
            patchAccount a
              (AccountPatch.mk None None None None None None None (Some balance) None))
    as H by reflexivity.
  assert (map (fun a => if String.eqb (Account.id a) id
                        then Account.set_balance a balance else a) (accounts db) =
          map (fun a => if String.eqb (Account.id a) id
                        then patchAccount a
                               (AccountPatch.mk None None None None None None None
                                  (Some balance) None)
                        else a) (accounts db)) as ->; [|reflexivity].
  apply map_ext. intros a. now rewrite H.
Qed.

Lemma selectAccount_app (id : string) (rows more : list Account.t) :
  selectAccount id (rows ++ more) =
  match selectAccount id rows with
  | Some a => Some a
  | None => selectAccount id more
  end.
Proof.
  unfold selectAccount. rewrite filter_app.
  now destruct (filter (fun a => String.eqb (Account.id a) id) rows).
Qed.

(** X10.  What [createAccount] stores can be read back.  When the id the
    database draws is new, [getAccount] on it returns the created row and
    every other id is looked up as before; the row carries the fields of the
    request, with balance 0, currency USD and the active flag set where the
    request leaves them out; it is listed among the accounts of its company;
    and a table with distinct ids stays one. *)
Theorem createAccount_read_back
    (newId : string) (account : InsertAccount.t) (db : Db) :
  ~ In newId (map Account.id (accounts db)) ->
  let (created, db') := createAccount newId account db in
  getAccount newId db' = Some created /\
  (forall id, id <> newId -> getAccount id db' = getAccount id db) /\
  In created (getAccountsByCompany (InsertAccount.companyId account) db') /\
  (InsertAccount.balance account = None -> Account.balance created = 0) /\
  (InsertAccount.currency account = None -> Account.currency created = "USD") /\
  (InsertAccount.isActive account = None -> Account.isActive created = true) /\
  (pk_accounts (accounts db) -> pk_accounts (accounts db')).
Proof.
  intros Hnew. unfold createAccount, getAccount, getAccountsByCompany. simpl.
  apply selectAccount_None_iff in Hnew as Hnone.
  split; [|split; [|split; [|split; [|split; [|split]]]]].
  - rewrite selectAccount_app, Hnone. unfold selectAccount. simpl.
    now rewrite String.eqb_refl.
  - intros id Hne. rewrite selectAccount_app.
    destruct (selectAccount id (accounts db)); [reflexivity|].
    unfold selectAccount. simpl.
    destruct (String.eqb_spec newId id); [congruence | reflexivity].
  - apply filter_In. split; [|apply String.eqb_refl].
    apply in_or_app. right. now left.
  - now intros ->.
  - now intros ->.
  - now intros ->.
  - unfold pk_accounts. rewrite map_app. simpl. intros Hpk.
    rewrite <- (rev_involutive (map Account.id (accounts db) ++ [newId])).
    apply NoDup_rev. rewrite rev_app_distr. simpl. constructor.
    + now rewrite <- in_rev.
    + now apply NoDup_rev.
Qed.

Lemma createAccount_read_back_witness :
  let db := mkDb [account "cash" "acme" ASSET 10000] [] [] 0 in
  let request :=
    InsertAccount.mk "acme" "4000" "Sales" REVENUE None None None None None in
  let created := Account.mk "a-2" "acme" "4000" "Sales" REVENUE None None true 0 "USD" in
  ~ In "a-2" (map Account.id (accounts db)) /\
  fst (createAccount "a-2" request db) = created /\
  getAccount "a-2" (snd (createAccount "a-2" request db)) = Some created.
Proof.
  intros db request created.
  assert (~ In "a-2" (map Account.id (accounts db))) as Hnew
    by (simpl; intros [H | []]; discriminate).
  split; [exact Hnew|]. split; [reflexivity|].
  pose proof (createAccount_read_back "a-2" request db Hnew) as H.
  destruct (createAccount "a-2" request db) as [c db'] eqn:Hc.
  assert (c = created) as <- by (now injection Hc as <- _).
  exact (proj1 H).
Defined.




(** X12.  [getAccountByCode] returns an account of the company with the code,
    and nothing exactly when the company has no account with the code.  After
    [createAccount] the lookup of the new account's company and code always
    finds an account, and it finds the new one when the company had none with
    that code. *)
Theorem getAccountByCode_finds
    (companyId code : string) (db : Db) :
  (forall a, getAccountByCode companyId code db = Some a ->
             In a (accounts db) /\ Account.companyId a = companyId /\
             Account.code a = code) /\
  (getAccountByCode companyId code db = None <->
   forall a, In a (accounts db) ->
             ~ (Account.companyId a = companyId /\ Account.code a = code)) /\
  (forall newId account,
     InsertAccount.companyId account = companyId ->
     InsertAccount.code account = code ->
     let (created, db') := createAccount newId account db in
     getAccountByCode companyId code db' <> None /\
     (getAccountByCode companyId code db = None ->
      getAccountByCode companyId code db' = Some created)).
Proof.
  unfold getAccountByCode.
  set (test := fun a => String.eqb (Account.companyId a) companyId &&
                        String.eqb (Account.code a) code).
  assert (forall a, test a = true <->
                    Account.companyId a = companyId /\ Account.code a = code) as Ht.
  { intros a. unfold test. now rewrite andb_true_iff, !String.eqb_eq. }
  split; [|split].
  - intros a H.
    assert (In a (filter test (accounts db))) as Hin
      by (destruct (filter test (accounts db)); [discriminate | injection H as ->; now left]).
    apply filter_In in Hin as [Hin Hta]. split; [exact Hin | now apply Ht].
  - split.
    + intros H a Ha Hboth. apply Ht in Hboth.
      assert (In a (filter test (accounts db))) as Hin by now apply filter_In.
      destruct (filter test (accounts db)); [contradiction | discriminate].
    + intros H. destruct (filter test (accounts db)) as [|a rest] eqn:E; [reflexivity|].
      exfalso. assert (In a (filter test (accounts db))) as Hin by (rewrite E; now left).
      apply filter_In in Hin as [Hin Hta]. apply (H a Hin). now apply Ht.
  - intros newId account Hk Hc. unfold createAccount. simpl.
    rewrite filter_app. simpl.
    assert (test (Account.mk newId (InsertAccount.companyId account)
                    (InsertAccount.code account) (InsertAccount.name account)
                    (InsertAccount.type account) (InsertAccount.parentId account)
                    (InsertAccount.description account)
                    match InsertAccount.isActive account with Some v => v | None => true end
                    match InsertAccount.balance account with Some v => v | None => 0 end
                    match InsertAccount.currency account with Some v => v | None => "USD" end)
            = true) as ->.
    { apply Ht. now split. }
    destruct (filter test (accounts db)); simpl; split; congruence.
Qed.

Lemma getAccountByCode_finds_witness :
  let first := Account.mk "a-1" "acme" "1000" "Cash" ASSET None None true 10000 "USD" in
  let db := mkDb [first] [] [] 0 in
  let request :=
    InsertAccount.mk "acme" "2000" "Loan" LIABILITY None None None None None in
  getAccountByCode "acme" "1000" db = Some first /\
  getAccountByCode "acme" "2000" db = None /\
  getAccountByCode "acme" "2000" (snd (createAccount "a-2" request db)) =
    Some (fst (createAccount "a-2" request db)).
Proof.
  intros first db request.
  assert (getAccountByCode "acme" "2000" db = None) as H0 by reflexivity.
  split; [reflexivity|]. split; [exact H0|].
  pose proof (proj2 (proj2 (getAccountByCode_finds "acme" "2000" db))
                "a-2" request eq_refl eq_refl) as H.
  destruct (createAccount "a-2" request db) as [c d]. simpl snd. simpl fst.
  exact (proj2 H H0).
Defined.

(** ** Ordered results *)

Section StableSortFacts.
Context {A : Type} (before : A -> A -> bool) (key : A -> Z).
Hypothesis before_true : forall x y, before x y = true -> key x <= key y.
Hypothesis before_false : forall x y, before x y = false -> key y <= key x.

Lemma insertSorted_perm (x : A) (l : list A) :
  Permutation (insertSorted before x l) (x :: l).
Proof.
  induction l as [|y ys IH]; simpl; [apply Permutation_refl|].
  destruct (before x y); [apply Permutation_refl|].
  eapply Permutation_trans; [apply perm_skip, IH | apply perm_swap].
Qed.

Lemma stableSort_perm (l : list A) : Permutation (stableSort before l) l.
Proof.
  induction l as [|x xs IH]; simpl; [apply Permutation_refl|].
  eapply Permutation_trans; [apply insertSorted_perm | now apply perm_skip].
Qed.

Lemma insertSorted_sorted (x : A) (l : list A) :
  StronglySorted (fun a b => key a <= key b) l ->
  StronglySorted (fun a b => key a <= key b) (insertSorted before x l).
Proof.
  induction 1 as [|y ys Hs IH Hy]; simpl.
  - constructor; constructor.
  - destruct (before x y) eqn:E.
    + constructor; [now constructor|].
      apply before_true in E. constructor; [exact E|].
      rewrite Forall_forall in Hy |- *. intros z Hz. specialize (Hy z Hz). lia.
    + constructor; [exact IH|].
      apply before_false in E.
      apply (Permutation_Forall (Permutation_sym (insertSorted_perm x ys))).
      now constructor.
Qed.

Lemma stableSort_sorted (l : list A) :
  StronglySorted (fun a b => key a <= key b) (stableSort before l).
Proof.
  induction l as [|x xs IH]; simpl; [constructor | now apply insertSorted_sorted].
Qed.

(** The head of the sorted list is an element with the least key. *)
Lemma stableSort_head (l : list A) :
  match hd_error (stableSort before l) with
  | Some x => In x l /\ forall y, In y l -> key x <= key y
  | None => l = []
  end.
Proof.
  pose proof (stableSort_perm l) as Hp.
  pose proof (stableSort_sorted l) as Hs.
  destruct (stableSort before l) as [|x rest]; simpl.
  - now apply Permutation_nil.
  - split.
    + apply (Permutation_in _ Hp). now left.
    + intros y Hy. apply (Permutation_in _ (Permutation_sym Hp)) in Hy.
      inversion Hs as [|? ? _ Hx]; subst. destruct Hy as [<- | Hy]; [lia|].
      rewrite Forall_forall in Hx. now apply Hx.
Qed.
End StableSortFacts.

(** ** Reading an entry back with its lines *)




(** ** Exchange rates *)

Lemma getExchangeRate_spec
    (fromCurrency toCurrency : string) (date : option Z)
    (rates : list ExchangeRate.t) :
  match getExchangeRate fromCurrency toCurrency date rates with
  | Some r =>
      In r rates /\ answers fromCurrency toCurrency date r /\
      forall r', In r' rates -> answers fromCurrency toCurrency date r' ->
                 ExchangeRate.date r' <= ExchangeRate.date r
  | None =>
      forall r', In r' rates -> ~ answers fromCurrency toCurrency date r'
  end.
Proof.
  unfold getExchangeRate.
  set (conditions := fun r => _ && _ && _).
  assert (forall r, conditions r = true <-> answers fromCurrency toCurrency date r)
    as Hc.
  { intros r. unfold conditions, answers.
    rewrite !andb_true_iff, !String.eqb_eq. destruct date as [d|].
    - rewrite Z.leb_le. split.
      + intros [[H1 H2] H3]. repeat split; try assumption. now intros ? [= <-].
      + intros (H1 & H2 & H3). repeat split; try assumption. now apply H3.
    - split; [intros [[H1 H2] _]; repeat split; try assumption; discriminate
             | intros (H1 & H2 & _); now repeat split]. }
  pose proof (stableSort_head
                (fun r r' => ExchangeRate.date r' <=? ExchangeRate.date r)
                (fun r => - ExchangeRate.date r)
                ltac:(intros x y H; apply Z.leb_le in H; cbv beta; lia)
                ltac:(intros x y H; apply Z.leb_gt in H; cbv beta; lia)
                (filter conditions rates)) as H.
  destruct (hd_error _) as [r|].
  - destruct H as [Hin Hmax]. apply filter_In in Hin as [Hin Hr].
    split; [exact Hin|]. split; [now apply Hc|].
    intros r' Hin' Hr'.
    assert (- ExchangeRate.date r <= - ExchangeRate.date r') as Hle
      by (apply Hmax, filter_In; split; [exact Hin' | now apply Hc]).
    lia.
  - intros r' Hin' Hr'.
    assert (In r' (filter conditions rates)) as Hf
      by (apply filter_In; split; [exact Hin' | now apply Hc]).
    now rewrite H in Hf.
Qed.

(** X14.  [getExchangeRate] returns the latest stored rate of the pair that is
    not later than the date asked for (the latest of all when no date is
    given): the rate it returns is stored, is for the pair and respects the
    date, and no stored rate that does so has a later date; it returns
    nothing exactly when no stored rate is for the pair and respects the
    date. *)
Theorem getExchangeRate_latest
    (fromCurrency toCurrency : string) (date : option Z)
    (rates : list ExchangeRate.t) :
  (forall r,
     getExchangeRate fromCurrency toCurrency date rates = Some r ->
     In r rates /\ answers fromCurrency toCurrency date r /\
     forall r', In r' rates -> answers fromCurrency toCurrency date r' ->
                ExchangeRate.date r' <= ExchangeRate.date r) /\
  (getExchangeRate fromCurrency toCurrency date rates = None <->
   forall r', In r' rates -> ~ answers fromCurrency toCurrency date r').
Proof.
  pose proof (getExchangeRate_spec fromCurrency toCurrency date rates) as H.
  destruct (getExchangeRate fromCurrency toCurrency date rates) as [r|]; split.
  - now intros r0 [= <-].
  - split; [discriminate|]. intros Hno. destruct H as (Hin & Hr & _).
    now destruct (Hno r Hin).
  - discriminate.
  - now split.
Qed.

Lemma getExchangeRate_latest_witness :
  let jan := ExchangeRate.mk "r1" "EUR" "USD" 1080000 1000 "manual" in
  let feb := ExchangeRate.mk "r2" "EUR" "USD" 1090000 2000 "manual" in
  let mar := ExchangeRate.mk "r3" "EUR" "USD" 1100000 3000 "manual" in
  let rates := [feb; mar; jan; ExchangeRate.mk "r4" "GBP" "USD" 1250000 2500 "manual"] in
  getExchangeRate "EUR" "USD" (Some 2500) rates = Some feb /\
  In feb rates /\ answers "EUR" "USD" (Some 2500) feb /\
  getExchangeRate "EUR" "USD" None rates = Some mar.
Proof.
  intros jan feb mar rates.
  assert (getExchangeRate "EUR" "USD" (Some 2500) rates = Some feb) as H
    by reflexivity.
  split; [exact H|].
  destruct (proj1 (getExchangeRate_latest "EUR" "USD" (Some 2500) rates) feb H)
    as (Hin & Hans & _).
  split; [exact Hin|]. split; [exact Hans | reflexivity].
Defined.

(** X15.  A rate stored with a date later than every stored rate of its pair
    is the one the lookup returns from then on, without a date or with any
    date from the rate's own date on; the lookups of other pairs return what
    they returned before. *)
Theorem createExchangeRate_then_lookup
    (newId : string) (rate : InsertExchangeRate.t) (rates : list ExchangeRate.t) :
  (forall r, In r rates ->
     ExchangeRate.fromCurrency r = InsertExchangeRate.fromCurrency rate ->
     ExchangeRate.toCurrency r = InsertExchangeRate.toCurrency rate ->
     ExchangeRate.date r < InsertExchangeRate.date rate) ->
  let (created, rates') := createExchangeRate newId rate rates in
  getExchangeRate (InsertExchangeRate.fromCurrency rate)
    (InsertExchangeRate.toCurrency rate) None rates' = Some created /\
  (forall d, InsertExchangeRate.date rate <= d ->
     getExchangeRate (InsertExchangeRate.fromCurrency rate)
       (InsertExchangeRate.toCurrency rate) (Some d) rates' = Some created) /\
  (forall f t date,
     (f, t) <> (InsertExchangeRate.fromCurrency rate,
                InsertExchangeRate.toCurrency rate) ->
     getExchangeRate f t date rates' = getExchangeRate f t date rates).
Proof.
  intros Hlater. unfold createExchangeRate.
  set (created := ExchangeRate.mk _ _ _ _ _ _).
  set (f0 := InsertExchangeRate.fromCurrency rate).
  set (t0 := InsertExchangeRate.toCurrency rate).
  assert (forall date,
            (forall d, date = Some d -> InsertExchangeRate.date rate <= d) ->
            getExchangeRate f0 t0 date (rates ++ [created]) = Some created) as Hget.
  { intros date Hdate.
    pose proof (getExchangeRate_spec f0 t0 date (rates ++ [created])) as H.
    assert (answers f0 t0 date created) as Hans by (now repeat split).
    assert (In created (rates ++ [created])) as Hin
      by (apply in_or_app; right; now left).
    destruct (getExchangeRate f0 t0 date (rates ++ [created])) as [r|].
    - destruct H as (Hr & (Hf & Ht & _) & Hmax).
      specialize (Hmax created Hin Hans).
      apply in_app_or in Hr as [Hr | [<- | []]]; [|reflexivity].
      specialize (Hlater r Hr Hf Ht). simpl in Hmax. lia.
    - now destruct (H created Hin). }
  split; [apply Hget; discriminate|]. split.
  - intros d Hd. apply Hget. now intros ? [= <-].
  - intros f t date Hne. unfold getExchangeRate. rewrite filter_app.
    cbn [filter].
    destruct (String.eqb (ExchangeRate.fromCurrency created) f &&
              String.eqb (ExchangeRate.toCurrency created) t) eqn:E.
    + exfalso. apply andb_prop in E as [Ef Et].
      apply String.eqb_eq in Ef, Et. apply Hne. now rewrite <- Ef, <- Et.
    + cbn [andb]. now rewrite app_nil_r.
Qed.

Lemma createExchangeRate_then_lookup_witness :
  let jan := ExchangeRate.mk "r1" "EUR" "USD" 1080000 1000 "manual" in
  let rates := [jan; ExchangeRate.mk "r4" "GBP" "USD" 1250000 2500 "manual"] in
  let rate := InsertExchangeRate.mk "EUR" "USD" 1090000 2000 None in
  let feb := ExchangeRate.mk "r2" "EUR" "USD" 1090000 2000 "manual" in
  (forall r, In r rates ->
     ExchangeRate.fromCurrency r = "EUR" -> ExchangeRate.toCurrency r = "USD" ->
     ExchangeRate.date r < 2000) /\
  getExchangeRate "EUR" "USD" None (snd (createExchangeRate "r2" rate rates)) = Some feb.
Proof.
  intros jan rates rate feb.
  assert (forall r, In r rates ->
            ExchangeRate.fromCurrency r = "EUR" -> ExchangeRate.toCurrency r = "USD" ->
            ExchangeRate.date r < 2000) as Hlater.
  { intros r [<- | [<- | []]]; simpl; intros; [lia | discriminate]. }
  split; [exact Hlater|].
  pose proof (createExchangeRate_then_lookup "r2" rate rates Hlater) as H.
  destruct (createExchangeRate "r2" rate rates) as [c rs] eqn:Hc.
  assert (c = feb) as <- by (now injection Hc as <- _).
  exact (proj1 H).
Defined.

(** ** The dashboard figures and the postings *)









(** ** Account numbers and document numbers *)

Lemma filler_zeros (n : nat) :
  filler "0" "0" n = zeros n /\ filler "0" "" n = zeros n.
Proof.
  induction n as [|n [IH1 IH2]]; simpl; [now split|].
  now rewrite IH2.
Qed.

Lemma padStart_zeros (s : string) (target : nat) :
  padStart s target "0" = zeros (target - String.length s) ++ s.
Proof.
  unfold padStart. destruct (Nat.leb_spec target (String.length s)) as [H|H].
  - replace (target - String.length s)%nat with 0%nat by lia. reflexivity.
  - now rewrite (proj1 (filler_zeros _)).
Qed.

Lemma length_append (s t : string) :
  String.length (s ++ t) = (String.length s + String.length t)%nat.
Proof. induction s as [|c s IH]; simpl; [reflexivity | now rewrite IH]. Qed.

Lemma length_zeros (n : nat) : String.length (zeros n) = n.
Proof. induction n as [|n IH]; simpl; [reflexivity | now rewrite IH]. Qed.

(** X17.  [formatAccountNumber] puts zeros in front of a code until it has 4
    characters: the result is the code behind as many "0" as it is short of
    4, it has 4 characters or the length of the code if that is more, a code
    of 4 characters or more comes back unchanged, and formatting twice is
    formatting once. *)
Theorem formatAccountNumber_pads (code : string) :
  formatAccountNumber code = zeros (4 - String.length code) ++ code /\
  String.length (formatAccountNumber code) = Nat.max 4 (String.length code) /\
  ((4 <= String.length code)%nat -> formatAccountNumber code = code) /\
  formatAccountNumber (formatAccountNumber code) = formatAccountNumber code.
Proof.
  unfold formatAccountNumber.
  assert (String.length (padStart code 4 "0") = Nat.max 4 (String.length code)) as Hlen
    by (rewrite padStart_zeros, length_append, length_zeros; lia).
  split; [apply padStart_zeros|]. split; [exact Hlen|]. split.
  - intros H. rewrite padStart_zeros.
    now replace (4 - String.length code)%nat with 0%nat by lia.
  - rewrite (padStart_zeros (padStart code 4 "0")), Hlen.
    now replace (4 - Nat.max 4 (String.length code))%nat with 0%nat by lia.
Qed.

Lemma formatAccountNumber_pads_witness :
  (4 <= String.length "10500")%nat /\
  formatAccountNumber "10500" = "10500" /\
  formatAccountNumber "42" = "0042".
Proof.
  assert (4 <= String.length "10500")%nat as H by (simpl; lia).
  split; [exact H|]. split; [|reflexivity].
  exact (proj1 (proj2 (proj2 (formatAccountNumber_pads "10500"))) H).
Defined.

Lemma numberOfString_stringOfNumber (n : nat) :
  numberOfString (stringOfNumber n) = Some n.
Proof.
  unfold numberOfString, stringOfNumber.
  rewrite DecimalString.NilEmpty.usu. simpl.
  now rewrite DecimalNat.Unsigned.of_to.
Qed.

Lemma numberOfString_zero (s : string) (n : nat) :
  numberOfString s = Some n -> numberOfString (String "0"%char s) = Some n.
Proof.
  unfold numberOfString. simpl.
  destruct (DecimalString.NilEmpty.uint_of_string s) as [d|]; [|discriminate].
  simpl. intros [= <-]. reflexivity.
Qed.

Lemma numberOfString_padded (n target : nat) :
  numberOfString (padStart (stringOfNumber n) target "0") = Some n.
Proof.
  rewrite padStart_zeros.
  induction (target - String.length (stringOfNumber n))%nat as [|k IH]; simpl.
  - apply numberOfString_stringOfNumber.
  - now apply numberOfString_zero.
Qed.

Lemma noDash_uint (d : Decimal.uint) :
  noDash (DecimalString.NilEmpty.string_of_uint d).
Proof. induction d; simpl; try split; try exact I; try assumption; discriminate. Qed.

Lemma split_at_dash (y y' z z' : string) :
  noDash y -> noDash y' ->
  y ++ String "-"%char z = y' ++ String "-"%char z' -> y = y' /\ z = z'.
Proof.
  revert y'. induction y as [|c y IH]; intros [|c' y']; simpl.
  - now intros _ _ [= ->].
  - intros _ [Hc _] [= <- _]. now destruct Hc.
  - intros [Hc _] _ [= -> _]. now destruct Hc.
  - intros [_ Hy] [_ Hy'] [= -> H]. destruct (IH y' Hy Hy' H) as [-> ->].
    now split.
Qed.

Lemma number_parts (y s y' s' : nat) :
  stringOfNumber y ++ "-" ++ padStart (stringOfNumber s) 3 "0" =
  stringOfNumber y' ++ "-" ++ padStart (stringOfNumber s') 3 "0" ->
  y = y' /\ s = s'.
Proof.
  intros H.
  apply split_at_dash in H as [Hy Hs]; try apply noDash_uint.
  split.
  - apply (f_equal numberOfString) in Hy.
    rewrite !numberOfString_stringOfNumber in Hy. congruence.
  - apply (f_equal numberOfString) in Hs.
    rewrite !numberOfString_padded in Hs. congruence.
Qed.

(** X18.  Document numbers identify their year and sequence: each of
    [generateInvoiceNumber], [generateExpenseNumber] and
    [generateJournalEntryNumber] gives different numbers to different pairs of
    a year and a sequence (the padding of the sequence to 3 digits never makes
    two sequences collide), and a number of one kind is never a number of
    another kind. *)
Theorem document_numbers_distinct (y s y' s' : nat) :
  (generateInvoiceNumber y s = generateInvoiceNumber y' s' -> y = y' /\ s = s') /\
  (generateExpenseNumber y s = generateExpenseNumber y' s' -> y = y' /\ s = s') /\
  (generateJournalEntryNumber y s = generateJournalEntryNumber y' s' ->
   y = y' /\ s = s') /\
  generateInvoiceNumber y s <> generateExpenseNumber y' s' /\
  generateInvoiceNumber y s <> generateJournalEntryNumber y' s' /\
  generateExpenseNumber y s <> generateJournalEntryNumber y' s'.
Proof.
  unfold generateInvoiceNumber, generateExpenseNumber, generateJournalEntryNumber.
  split; [|split; [|split; [|split; [|split]]]].
  - simpl. intros [= H]. now apply number_parts.
  - simpl. intros [= H]. now apply number_parts.
  - simpl. intros [= H]. now apply number_parts.
  - simpl. discriminate.
  - simpl. discriminate.
  - simpl. discriminate.
Qed.

Lemma document_numbers_distinct_witness :
  generateJournalEntryNumber 2024 7 = "JE-2024-007" /\
  generateInvoiceNumber 2024 1234 = "INV-2024-1234" /\
  (generateJournalEntryNumber 2024 7 = generateJournalEntryNumber 2024 7 ->
   2024%nat = 2024%nat /\ 7%nat = 7%nat).
Proof.
  split; [reflexivity|]. split; [reflexivity|].
  exact (proj1 (proj2 (proj2 (document_numbers_distinct 2024 7 2024 7)))).
Defined.

(** ** The chart of accounts in display order *)

Section StableSortOrder.
Context {A : Type} (before : A -> A -> bool).
Hypothesis before_total : forall x y, before x y = false -> before y x = true.
Hypothesis before_trans :
  forall x y z, before x y = true -> before y z = true -> before x z = true.

Lemma insertSorted_ordered (x : A) (l : list A) :
  StronglySorted (fun a b => before a b = true) l ->
  StronglySorted (fun a b => before a b = true) (insertSorted before x l).
Proof.
  induction 1 as [|y ys Hs IH Hy]; simpl.
  - constructor; constructor.
  - destruct (before x y) eqn:E.
    + constructor; [now constructor|].
      constructor; [exact E|].
      rewrite Forall_forall in Hy |- *. intros z Hz.
      exact (before_trans _ _ _ E (Hy z Hz)).
    + constructor; [exact IH|].
      apply before_total in E.
      apply (Permutation_Forall (Permutation_sym (insertSorted_perm before x ys))).
      now constructor.
Qed.

Lemma stableSort_ordered (l : list A) :
  StronglySorted (fun a b => before a b = true) (stableSort before l).
Proof.
  induction l as [|x xs IH]; simpl; [constructor | now apply insertSorted_ordered].
Qed.
End StableSortOrder.

Lemma getAccountTypeOrder_inj (s t : AccountType) :
  getAccountTypeOrder s = getAccountTypeOrder t -> s = t.
Proof. destruct s, t; simpl; intros H; try reflexivity; discriminate. Qed.

Lemma compareAccounts_ahead (localeCompare : string -> string -> Z)
    (a b : AccountType * string) :
  (compareAccounts localeCompare a b <=? 0) = true <-> ahead localeCompare a b.
Proof.
  unfold compareAccounts, ahead. cbv zeta. rewrite Z.leb_le.
  destruct (Z.eqb_spec (getAccountTypeOrder (fst a) - getAccountTypeOrder (fst b)) 0)
    as [E|E]; simpl.
  - assert (fst a = fst b) as Hty by (apply getAccountTypeOrder_inj; lia).
    split; [intros H; right; now split | intros [H|[_ H]]; [lia | exact H]].
  - split; [intros H; left; lia | intros [H|[H _]]; [lia|]].
    rewrite H in E. lia.
Qed.

(** X19.  [sortAccountsByType], for a [localeCompare] that is a total order
    on the codes (any two codes compare one way or the other, and the
    comparison is transitive): the result holds the same accounts as the
    argument, and every account in it stands ahead of every later one: assets
    first, then liabilities, equity, revenue and expenses, and inside one type
    the codes in the order of [localeCompare]. *)
Theorem sortAccountsByType_sorted (localeCompare : string -> string -> Z)
    (accounts : list (AccountType * string)) :
  (forall x y, localeCompare x y <= 0 \/ localeCompare y x <= 0) ->
  (forall x y z, localeCompare x y <= 0 -> localeCompare y z <= 0 ->
                 localeCompare x z <= 0) ->
  Permutation (sortAccountsByType localeCompare accounts) accounts /\
  StronglySorted (ahead localeCompare) (sortAccountsByType localeCompare accounts).
Proof.
  intros Htotal Htrans. unfold sortAccountsByType. split.
  - apply stableSort_perm.
  - set (before := fun a b => compareAccounts localeCompare a b <=? 0).
    assert (StronglySorted (fun a b => before a b = true) (stableSort before accounts))
      as Hs.
    { apply stableSort_ordered.
      - intros x y Hxy. unfold before in *.
        apply compareAccounts_ahead.
        assert (~ ahead localeCompare x y) as Hn
          by (rewrite <- compareAccounts_ahead; congruence).
        unfold ahead in *.
        destruct (Z.lt_trichotomy (getAccountTypeOrder (fst x))
                                  (getAccountTypeOrder (fst y))) as [H|[H|H]].
        + destruct Hn. now left.
        + apply getAccountTypeOrder_inj in H. right. split; [now symmetry|].
          destruct (Htotal (snd x) (snd y)) as [H'|H']; [|exact H'].
          destruct Hn. right. now split.
        + now left.
      - intros x y z Hxy Hyz. unfold before in *.
        rewrite compareAccounts_ahead in *. unfold ahead in *.
        destruct Hxy as [H1|[E1 H1]], Hyz as [H2|[E2 H2]].
        + left. lia.
        + left. rewrite <- E2. exact H1.
        + left. rewrite E1. exact H2.
        + right. split; [congruence|]. exact (Htrans _ _ _ H1 H2). }
    clear - Hs. induction Hs as [|a l Hl IH Ha]; constructor; [exact IH|].
    rewrite Forall_forall in Ha |- *. intros b Hb.
    apply compareAccounts_ahead. exact (Ha b Hb).
Qed.

Lemma sortAccountsByType_sorted_witness :
  sortAccountsByType byLength
    [(EXPENSE, "5000"); (ASSET, "10500"); (REVENUE, "4000"); (ASSET, "1000")] =
    [(ASSET, "1000"); (ASSET, "10500"); (REVENUE, "4000"); (EXPENSE, "5000")] /\
  StronglySorted (ahead byLength)
    (sortAccountsByType byLength
       [(EXPENSE, "5000"); (ASSET, "10500"); (REVENUE, "4000"); (ASSET, "1000")]).
Proof.
  split; [reflexivity|].
  apply (sortAccountsByType_sorted byLength
           [(EXPENSE, "5000"); (ASSET, "10500"); (REVENUE, "4000"); (ASSET, "1000")]).
  - intros x y. unfold byLength. lia.
  - intros x y z. unfold byLength. lia.
Defined.
